(** * AutoSage: bounded process runner, ngspice adapter and request dispatcher

    A shallow embedding of [autosage/runner.py], [autosage/tools/ngspice.py]
    and [autosage/server.py].

    - Python values that travel through JSON are the inductive [PyVal];
      [bool] is a subclass of [int] in Python, which [PyInt] keeps visible.
    - A Python [dict] with string keys is a [gmap string _].
    - A Python [str] is a [string]; one [ascii] stands for one character
      (the characters below U+0100).
    - The operating system (clock, child processes, the temporary directory)
      is an explicit [World] threaded through a small state-and-exception
      monad [M]; every effect the code performs is appended to a trace.
    - Time is counted in integer microseconds; floating point rounding of
      [time.monotonic()] is not modelled, the overflow of
      [timeout_ms / 1000.0] is. *)

From Stdlib Require Import ZArith QArith.QArith_base String Ascii Strings.Byte List Bool Lia.
From Stdlib Require Import Sorting.Sorted OrderedTypeEx.
From stdpp Require Import gmap strings list pretty.
Import ListNotations.
Open Scope string_scope.
Open Scope list_scope.
Open Scope Z_scope.

(** ** Python values *)

(** Instances of Python's [int]: genuine integers and the two booleans. *)
Inductive PyInt :=
| PInt (z : Z)
| PBool (b : bool).

Inductive PyVal :=
| VNone
| VInt (i : PyInt)
| VFloat (q : Q)
| VStr (s : string)
| VList (l : list PyVal)
| VDict (d : gmap string PyVal).

(** The numeric value of an [int] instance ([True] is 1, [False] is 0). *)
Definition int_value (i : PyInt) : Z :=
  match i with
  | PInt z => z
  | PBool b => Z.b2z b
  end.

(** [isinstance(v, int)] *)
Definition isinstance_int (v : PyVal) : bool :=
  match v with
  | VInt _ => true
  | _ => false
  end.

(** [isinstance(v, dict)] *)
Definition isinstance_dict (v : PyVal) : bool :=
  match v with
  | VDict _ => true
  | _ => false
  end.

(** [bool(v)]: Python truthiness. *)
Definition truthy (v : PyVal) : bool :=
  match v with
  | VNone => false
  | VInt i => negb (int_value i =? 0)
  | VFloat q => negb (Qnum q =? 0)
  | VStr s => negb (String.eqb s "")
  | VList l => match l with [] => false | _ => true end
  | VDict d => negb (bool_decide (d = ∅))
  end.

(** [a or b] *)
Definition py_or (a b : PyVal) : PyVal := if truthy a then a else b.

(** [d.get(key)] *)
Definition dict_get (d : gmap string PyVal) (key : string) : PyVal :=
  match d !! key with
  | Some v => v
  | None => VNone
  end.

(** [v == s] for a string literal [s]: only a [str] can be equal to it. *)
Definition eq_str (v : PyVal) (s : string) : bool :=
  match v with
  | VStr t => String.eqb t s
  | _ => false
  end.

(** [hash(v)] succeeds except on lists and dicts. *)
Definition hashable (v : PyVal) : bool :=
  match v with
  | VList _ | VDict _ => false
  | _ => true
  end.

(** [str(i)] as used by an f-string. *)
Definition str_of_int (i : PyInt) : string :=
  match i with
  | PInt z => pretty z
  | PBool true => "True"
  | PBool false => "False"
  end.

(** ** Python string methods *)

Definition code (c : ascii) : N := N_of_ascii c.

(** [c.isspace()] for the characters below U+0100. *)
Definition isspace (c : ascii) : bool :=
  let n := code c in
  ((9 <=? n) && (n <=? 13) || (28 <=? n) && (n <=? 32)
   || (n =? 133) || (n =? 160))%N.

(** Line boundaries recognised by [str.splitlines()]. *)
Definition is_linebreak (c : ascii) : bool :=
  let n := code c in
  ((10 <=? n) && (n <=? 13) || (28 <=? n) && (n <=? 30) || (n =? 133))%N.

Definition lower_char (c : ascii) : ascii :=
  let n := code c in
  if ((65 <=? n) && (n <=? 90)
      || (192 <=? n) && (n <=? 222) && negb (n =? 215))%N
  then ascii_of_N (n + 32) else c.

(** [s.lower()] *)
Fixpoint lower (s : string) : string :=
  match s with
  | EmptyString => EmptyString
  | String c r => String (lower_char c) (lower r)
  end.

(** [sub in s] *)
Fixpoint contains (sub s : string) : bool :=
  String.prefix sub s ||
  match s with
  | EmptyString => false
  | String _ r => contains sub r
  end.

Fixpoint lstrip (s : string) : string :=
  match s with
  | EmptyString => EmptyString
  | String c r => if isspace c then lstrip r else s
  end.

Definition rstrip (s : string) : string := String.rev (lstrip (String.rev s)).

(** [s.strip()] *)
Definition strip (s : string) : string := rstrip (lstrip s).

(** [s.splitlines()]: [cur] is the line being read.  A line is emitted at
    every boundary ([\r\n] counting as one); a last line without boundary
    is emitted only when it is not empty. *)
Fixpoint splitlines_from (cur s : string) : list string :=
  match s with
  | EmptyString => if String.eqb cur "" then [] else [cur]
  | String c r =>
      if is_linebreak c then
        cur :: match r with
               | String c' r' =>
                   if ((code c =? 13) && (code c' =? 10))%N
                   then splitlines_from "" r'
                   else splitlines_from "" r
               | EmptyString => []
               end
      else splitlines_from (cur +:+ String c "") r
  end.

Definition splitlines (s : string) : list string := splitlines_from "" s.

(** [sep.join(l)] *)
Definition join (sep : string) (l : list string) : string := String.concat sep l.

(** [l[:n]] for a non-negative or negative bound [n] that the code only
    uses when it is positive. *)
Definition take {A} (n : Z) (l : list A) : list A := firstn (Z.to_nat n) l.

(** [PurePath.suffix]: the last dot of the name and what follows it, unless
    that dot is the first or the last character. *)
Fixpoint last_dot_from (s : string) : option string :=
  match s with
  | EmptyString => None
  | String c r =>
      match last_dot_from r with
      | Some t => Some t
      | None => if (code c =? 46)%N then Some s else None
      end
  end.

Definition suffix (name : string) : string :=
  match name with
  | EmptyString => ""
  | String _ r =>
      match last_dot_from r with
      | Some t => if String.eqb t "." then "" else t
      | None => ""
      end
  end.

Definition nl : string := String (ascii_of_N 10) "".

(** ** Library functions of Python that the code calls

    [bytes.decode("utf-8", errors="replace")], the UTF-8 encoding done by
    [Path.write_text], [mimetypes.guess_type(name)[0]] and
    [base64.b64encode(data).decode("ascii")] are not code of this
    repository; the development is parametric in them. *)
Class PyLib := {
  decode_utf8 : list byte -> string;
  encode_utf8 : string -> list byte;
  guess_type : string -> option string;
  b64encode : list byte -> string
}.

(** ** The operating system *)

Inductive Channel := Stdout | Stderr.

(** The outcome of one [os.read(fd, 65536)]: the bytes read (none at end of
    file) or an [OSError]. *)
Inductive ReadResult :=
| Chunk (data : list byte)
| ReadError.

(** One call of [selector.select(timeout=0.05)] as the child drives it: the
    time the call would block if a stream is ready, and for each ready
    stream what reading it gives. *)
Record Round := {
  r_wait : Z;
  r_events : list (Channel * ReadResult)
}.

(** An entry of the working directory. *)
Record Entry := {
  e_name : string;
  e_is_file : bool;
  e_data : list byte
}.

(** A child process: what its two pipes deliver round after round (after the
    last round both pipes are at end of file), when it exits on its own
    (microseconds after its start, [None]: never) and with which code, how
    long it takes to exit once asked to terminate ([None]: it ignores the
    request), and the files it leaves in its working directory. *)
Record Child := {
  c_rounds : list Round;
  c_exit_at : option Z;
  c_exit_code : Z;
  c_term_delay : option Z;
  c_files : list Entry
}.

(** The outcome of [subprocess.Popen]: a running child, a
    [FileNotFoundError], another [OSError] with its [str(exc)], or an
    exception of class [cls] that is not an [OSError]. *)
Inductive Spawn :=
| Spawned (c : Child)
| NotFound
| StartFailed (msg : string)
| Raised (cls : string).

(** A string with a NUL character, which no argument of a system call can
    hold. *)
Fixpoint has_nul (s : string) : bool :=
  match s with
  | EmptyString => false
  | String c r => (code c =? 0)%N || has_nul r
  end.

Inductive Effect :=
| EPopen (argv : list string) (cwd : string)
| ESelect (blocked : Z)
| ERead (ch : Channel) (r : ReadResult)
| ETerminate
| EWaitFor (limit blocked : Z)
| EKill
| EWait (blocked : Z)
| EMkdtemp (path : string)
| EWriteText (name text : string)
| ERmtree (path : string).

(** [w_spawns] answers the successive [Popen] calls that reach the
    operating system (none left: the executable is not found); [w_dir] is the content of the current
    temporary directory, whose creation, writing, listing and reading are
    taken to succeed. *)
Record World := {
  w_clock : Z;
  w_spawns : list Spawn;
  w_dir : list Entry;
  w_tmp : nat;
  w_trace : list Effect
}.

Definition log (e : Effect) (w : World) : World :=
  {| w_clock := w_clock w; w_spawns := w_spawns w; w_dir := w_dir w;
     w_tmp := w_tmp w; w_trace := w_trace w ++ [e] |}.

Definition logs (es : list Effect) (w : World) : World :=
  {| w_clock := w_clock w; w_spawns := w_spawns w; w_dir := w_dir w;
     w_tmp := w_tmp w; w_trace := w_trace w ++ es |}.

Definition set_clock (t : Z) (w : World) : World :=
  {| w_clock := t; w_spawns := w_spawns w; w_dir := w_dir w;
     w_tmp := w_tmp w; w_trace := w_trace w |}.

Definition set_dir (d : list Entry) (w : World) : World :=
  {| w_clock := w_clock w; w_spawns := w_spawns w; w_dir := d;
     w_tmp := w_tmp w; w_trace := w_trace w |}.

(** ** Exceptions and the monad *)

(** [class RunnerError(Exception)] *)
Record RunnerError := {
  error_type : string;
  message : string;
  details : gmap string PyVal
}.

(** [details or {}] *)
Definition or_empty (details : option (gmap string PyVal)) : gmap string PyVal :=
  match details with
  | Some d => d
  | None => ∅
  end.

(** [RunnerError.__init__] *)
Definition RunnerError_init (error_type message : string)
    (details : option (gmap string PyVal)) : RunnerError :=
  {| error_type := error_type; message := message; details := or_empty details |}.

Inductive Exn :=
| ERunner (e : RunnerError)
| EOther (cls : string).

(** A computation returns, raises, or blocks for ever. *)
Inductive Res (A : Type) :=
| Ret (a : A) (w : World)
| Raise (e : Exn) (w : World)
| Hang (w : World).
Arguments Ret {A} a w.
Arguments Raise {A} e w.
Arguments Hang {A} w.

Definition M (A : Type) : Type := World -> Res A.

Definition ret {A} (a : A) : M A := fun w => Ret a w.
Definition raise {A} (e : Exn) : M A := fun w => Raise e w.
Definition bind {A B} (m : M A) (k : A -> M B) : M B :=
  fun w =>
    match m w with
    | Ret a w' => k a w'
    | Raise e w' => Raise e w'
    | Hang w' => Hang w'
    end.

(** [try: m except RunnerError as exc: h exc] *)
Definition try_runner {A} (m : M A) (h : RunnerError -> M A) : M A :=
  fun w =>
    match m w with
    | Raise (ERunner e) w' => h e w'
    | r => r
    end.

Definition world_of {A} (r : Res A) : World :=
  match r with
  | Ret _ w | Raise _ w | Hang w => w
  end.

Declare Scope py_scope.
Delimit Scope py_scope with py.
Notation "x <- m ;; k" := (bind m (fun x => k))
  (at level 100, m at next level, right associativity) : py_scope.
Open Scope py_scope.

(** ** runner.py *)

Section Runner.
Context {lib : PyLib}.

(** The local variables of the read loop: the two buffers, the two
    truncation flags and the streams still registered with the selector. *)
Record Loop := {
  stdout_buf : list byte;
  stderr_buf : list byte;
  stdout_truncated : bool;
  stderr_truncated : bool;
  stdout_registered : bool;
  stderr_registered : bool
}.

Definition loop_init : Loop :=
  {| stdout_buf := []; stderr_buf := [];
     stdout_truncated := false; stderr_truncated := false;
     stdout_registered := true; stderr_registered := true |}.

Definition registered (st : Loop) (ch : Channel) : bool :=
  match ch with
  | Stdout => stdout_registered st
  | Stderr => stderr_registered st
  end.

(** [selector.unregister(stream)], a second call being swallowed by the
    [except Exception: pass]. *)
Definition unregister (ch : Channel) (st : Loop) : Loop :=
  match ch with
  | Stdout =>
      {| stdout_buf := stdout_buf st; stderr_buf := stderr_buf st;
         stdout_truncated := stdout_truncated st;
         stderr_truncated := stderr_truncated st;
         stdout_registered := false;
         stderr_registered := stderr_registered st |}
  | Stderr =>
      {| stdout_buf := stdout_buf st; stderr_buf := stderr_buf st;
         stdout_truncated := stdout_truncated st;
         stderr_truncated := stderr_truncated st;
         stdout_registered := stdout_registered st;
         stderr_registered := false |}
  end.

(** The bytes of a read, [b""] after an [OSError]. *)
Definition chunk_of (r : ReadResult) : list byte :=
  match r with
  | Chunk d => d
  | ReadError => []
  end.

(** One capped buffer: [remaining = cap - len(buf)], extend by
    [chunk[:remaining]] if [remaining > 0], flag if [len(chunk) > remaining]. *)
Definition capture (cap : Z) (buf : list byte) (truncated : bool)
    (chunk : list byte) : list byte * bool :=
  let remaining := cap - Z.of_nat (length buf) in
  (if 0 <? remaining then buf ++ take remaining chunk else buf,
   if remaining <? Z.of_nat (length chunk) then true else truncated).

(** The body of [for key, _ in events]. *)
Definition handle_event (max_stdout_bytes max_stderr_bytes : Z)
    (st : Loop) (ev : Channel * ReadResult) : Loop :=
  let chunk := chunk_of (snd ev) in
  match chunk with
  | [] => unregister (fst ev) st
  | _ :: _ =>
      match fst ev with
      | Stdout =>
          let r := capture max_stdout_bytes (stdout_buf st) (stdout_truncated st) chunk in
          {| stdout_buf := fst r; stderr_buf := stderr_buf st;
             stdout_truncated := snd r;
             stderr_truncated := stderr_truncated st;
             stdout_registered := stdout_registered st;
             stderr_registered := stderr_registered st |}
      | Stderr =>
          let r := capture max_stderr_bytes (stderr_buf st) (stderr_truncated st) chunk in
          {| stdout_buf := stdout_buf st; stderr_buf := fst r;
             stdout_truncated := stdout_truncated st;
             stderr_truncated := snd r;
             stdout_registered := stdout_registered st;
             stderr_registered := stderr_registered st |}
      end
  end.

(** The poll interval of [selector.select(timeout=0.05)], in microseconds. *)
Definition poll_us : Z := 50000.

(** The grace period of [process.wait(timeout=0.5)], in microseconds. *)
Definition grace_us : Z := 500000.

(** [selector.select(timeout=0.05)]: only registered streams are reported;
    without any the call blocks for the whole interval. *)
Definition select (st : Loop) (r : Round) : list (Channel * ReadResult) * Z :=
  let events := List.filter (fun ev => registered st (fst ev)) (r_events r) in
  (events,
   match events with
   | [] => poll_us
   | _ :: _ => Z.min (Z.max 0 (r_wait r)) poll_us
   end).

(** [process.poll() is not None] at time [now] for a child started at [start]. *)
Definition exited (c : Child) (start now : Z) : bool :=
  match c_exit_at c with
  | Some t => start + t <=? now
  | None => false
  end.

Inductive LoopEnd := Finished | TimedOut.

(** [while selector.get_map(): ...].  The recursion follows the rounds of
    the child; a child without rounds left has both pipes at end of file. *)
Fixpoint wait_loop (c : Child) (start timeout_us max_stdout_bytes max_stderr_bytes : Z)
    (rounds : list Round) (st : Loop) (w : World) : LoopEnd * Loop * World :=
  if negb (stdout_registered st || stderr_registered st) then (Finished, st, w)
  else if timeout_us <=? w_clock w - start then (TimedOut, st, w)
  else
    match rounds with
    | [] => (Finished, st, w)
    | r :: rounds' =>
        let (events, blocked) := select st r in
        let w1 := log (ESelect blocked) (set_clock (w_clock w + blocked) w) in
        if match events with [] => exited c start (w_clock w1) | _ :: _ => false end
        then (Finished, st, w1)
        else
          let st' := fold_left (handle_event max_stdout_bytes max_stderr_bytes) events st in
          let w2 := logs (List.map (fun ev => ERead (fst ev) (snd ev)) events) w1 in
          wait_loop c start timeout_us max_stdout_bytes max_stderr_bytes rounds' st' w2
    end.

(** Both pipes reporting end of file. *)
Definition eof_round : Round :=
  {| r_wait := 0; r_events := [(Stdout, Chunk []); (Stderr, Chunk [])] |}.

(** [subprocess.Popen(argv, cwd=cwd, ...)]: an argument or a directory
    with a NUL character is refused with [ValueError: embedded null byte]
    before the operating system is asked. *)
Definition popen (argv : list string) (cwd : string) (w : World) : Spawn * World :=
  let w1 := log (EPopen argv cwd) w in
  if existsb has_nul (cwd :: argv) then (Raised "ValueError", w1)
  else
    match w_spawns w with
    | [] => (NotFound, w1)
    | s :: rest =>
        (s, {| w_clock := w_clock w1; w_spawns := rest; w_dir := w_dir w1;
               w_tmp := w_tmp w1; w_trace := w_trace w1 |})
    end.

(** The least [int] that [timeout_ms / 1000.0] cannot convert to a float:
    from there on the division raises [OverflowError]. *)
Definition FLOAT_INT_LIMIT : Z := 2 ^ 1024 - 2 ^ 970.
Arguments FLOAT_INT_LIMIT : simpl never.

(** The moment a child asked to terminate at [now] is gone, if ever. *)
Definition gone_at (c : Child) (start now : Z) : option Z :=
  match c_exit_at c, c_term_delay c with
  | Some t, Some d => Some (Z.min (start + t) (now + Z.max 0 d))
  | Some t, None => Some (start + t)
  | None, Some d => Some (now + Z.max 0 d)
  | None, None => None
  end.

(** [process.terminate()], [process.wait(timeout=0.5)], and
    [process.kill()] after [TimeoutExpired]. *)
Definition terminate (c : Child) (start : Z) (w : World) : World :=
  let now := w_clock w in
  let w1 := log ETerminate w in
  match gone_at c start now with
  | Some t =>
      if t <=? now + grace_us
      then log (EWaitFor grace_us (Z.max 0 (t - now))) (set_clock (Z.max now t) w1)
      else log EKill (log (EWaitFor grace_us grace_us) (set_clock (now + grace_us) w1))
  | None => log EKill (log (EWaitFor grace_us grace_us) (set_clock (now + grace_us) w1))
  end.

(** A file written into the directory replaces an entry of the same name. *)
Definition write_entry (e : Entry) (d : list Entry) : list Entry :=
  List.filter (fun x => negb (String.eqb (e_name x) (e_name e))) d ++ [e].

(** [process.wait()] without a timeout: it blocks until the child has
    exited, which is when the files of the child are in place. *)
Definition wait (c : Child) (start : Z) : M Z :=
  fun w =>
    match c_exit_at c with
    | None => Hang w
    | Some t =>
        let now := w_clock w in
        let w1 := set_dir (fold_left (fun d e => write_entry e d) (c_files c) (w_dir w))
                    (set_clock (Z.max now (start + t)) w) in
        Ret (c_exit_code c) (log (EWait (Z.max 0 (start + t - now))) w1)
    end.

Definition invalid_request (msg : string) : Exn :=
  ERunner (RunnerError_init "invalid_request" msg None).

Definition run_process (argv : list string) (cwd : string)
    (timeout_ms max_stdout_bytes max_stderr_bytes : PyInt)
    : M (string * string * Z * Z) :=
  fun w =>
    match argv with
    | [] => Raise (invalid_request "argv must not be empty.") w
    | argv0 :: _ =>
        if int_value timeout_ms <=? 0
        then Raise (invalid_request "timeout_ms must be > 0.") w
        else if (int_value max_stdout_bytes <=? 0) || (int_value max_stderr_bytes <=? 0)
        then Raise (invalid_request "max stdout/stderr byte limits must be > 0.") w
        else
          let start := w_clock w in
          match popen argv cwd w with
          | (NotFound, w1) =>
              Raise (ERunner (RunnerError_init "process_not_found"
                                ("Executable not found: " +:+ argv0)
                                (Some {[ "argv0" := VStr argv0 ]}))) w1
          | (StartFailed msg, w1) =>
              Raise (ERunner (RunnerError_init "process_start_failed" msg
                                (Some {[ "argv" := VStr (join " " argv) ]}))) w1
          | (Raised cls, w1) => Raise (EOther cls) w1
          | (Spawned c, w1) =>
              if FLOAT_INT_LIMIT <=? int_value timeout_ms
              then Raise (EOther "OverflowError") w1
              else
                let timeout_us := int_value timeout_ms * 1000 in
                match wait_loop c start timeout_us
                        (int_value max_stdout_bytes) (int_value max_stderr_bytes)
                        (c_rounds c ++ [eof_round]) loop_init w1 with
                | (TimedOut, _, w2) =>
                    Raise (ERunner (RunnerError_init "timeout"
                                      ("Process exceeded timeout of "
                                         +:+ str_of_int timeout_ms +:+ " ms.")
                                      (Some {[ "timeout_ms" := VInt timeout_ms ]})))
                          (terminate c start w2)
                | (Finished, st, w2) =>
                    match wait c start w2 with
                    | Ret exit_code w3 =>
                        let elapsed_ms := (w_clock w3 - start) / 1000 in
                        let stdout_text := decode_utf8 (stdout_buf st) in
                        let stderr_text := decode_utf8 (stderr_buf st) in
                        let stdout_text :=
                          if stdout_truncated st
                          then stdout_text +:+ nl +:+ "[stdout truncated]" else stdout_text in
                        let stderr_text :=
                          if stderr_truncated st
                          then stderr_text +:+ nl +:+ "[stderr truncated]" else stderr_text in
                        Ret (stdout_text, stderr_text, exit_code, elapsed_ms) w3
                    | Raise e w3 => Raise e w3
                    | Hang w3 => Hang w3
                    end
                end
          end
    end.

End Runner.

(** ** tools/ngspice.py *)

(** The response envelope; [error] is [None] or a dict with the three keys
    [type], [message] and [details]. *)
Record FileArtifact := {
  f_name : string;
  f_mime : string;
  f_bytes_base64 : string
}.

Record Metrics := {
  elapsed_ms : Z;
  exit_code : Z
}.

Record ErrorInfo := {
  err_type : string;
  err_message : string;
  err_details : gmap string PyVal
}.

Record Envelope := {
  ok : bool;
  stdout : string;
  stderr : string;
  files : list FileArtifact;
  metrics : Metrics;
  error : option ErrorInfo
}.

(** [DEFAULT_LIMITS], in the order of the dict literal. *)
Definition DEFAULT_LIMITS : list (string * PyVal) :=
  [ ("timeout_ms", VInt (PInt 10000));
    ("max_stdout_bytes", VInt (PInt 1000000));
    ("max_stderr_bytes", VInt (PInt 1000000));
    ("max_file_bytes", VInt (PInt 10000000)) ].

Definition ALLOWED_FILE_EXTENSIONS : list string := [".log"; ".raw"; ".txt"].

(** The body of [for key in DEFAULT_LIMITS]. *)
Definition merge_key (limits : gmap string PyVal) (merged : gmap string PyVal)
    (key : string) : gmap string PyVal :=
  match limits !! key with
  | Some v => if isinstance_int v then <[key := v]> merged else merged
  | None => merged
  end.

Definition _build_limits (limits : option (gmap string PyVal)) : gmap string PyVal :=
  let merged : gmap string PyVal := list_to_map DEFAULT_LIMITS in
  match limits with
  | Some l =>
      if truthy (VDict l)
      then fold_left (merge_key l) (List.map fst DEFAULT_LIMITS) merged
      else merged
  | None => merged
  end.

(** [DEFAULT_LIMITS.get(key)] *)
Definition default_of (key : string) : option PyVal :=
  (list_to_map DEFAULT_LIMITS : gmap string PyVal) !! key.

(** What one pass of the merge loop leaves under [key] when it started
    from [old]. *)
Definition override (l : gmap string PyVal) (key : string) (old : option PyVal)
    : option PyVal :=
  match l !! key with
  | Some v => if isinstance_int v then Some v else old
  | None => old
  end.

Definition _error_response (error_type message : string)
    (details : option (gmap string PyVal)) : Envelope :=
  {| ok := false; stdout := ""; stderr := ""; files := [];
     metrics := {| elapsed_ms := 0; exit_code := -1 |};
     error := Some {| err_type := error_type; err_message := message;
                      err_details := or_empty details |} |}.

Definition _response (ok : bool) (stdout stderr : string) (files : list FileArtifact)
    (elapsed_ms exit_code : Z) (error : option ErrorInfo) : Envelope :=
  {| ok := ok; stdout := stdout; stderr := stderr; files := files;
     metrics := {| elapsed_ms := elapsed_ms; exit_code := exit_code |};
     error := error |}.

(** [sorted(entries, key=lambda p: p.name)]: a stable sort on the names. *)
Fixpoint insert_by_name (e : Entry) (l : list Entry) : list Entry :=
  match l with
  | [] => [e]
  | x :: r =>
      if String.leb (e_name e) (e_name x) then e :: l else x :: insert_by_name e r
  end.

Definition sorted_by_name (l : list Entry) : list Entry :=
  fold_right insert_by_name [] l.

Section Ngspice.
Context {lib : PyLib}.

(** The [continue] tests of [_collect_files]. *)
Definition collectable (max_file_bytes : PyInt) (entry : Entry) : bool :=
  e_is_file entry
  && existsb (String.eqb (lower (suffix (e_name entry)))) ALLOWED_FILE_EXTENSIONS
  && negb (int_value max_file_bytes <? Z.of_nat (length (e_data entry))).

(** [mimetypes.guess_type(name)[0] or "application/octet-stream"] *)
Definition mime_of (name : string) : string :=
  match guess_type name with
  | Some m => if String.eqb m "" then "application/octet-stream" else m
  | None => "application/octet-stream"
  end.

Definition artifact (entry : Entry) : FileArtifact :=
  {| f_name := e_name entry;
     f_mime := mime_of (e_name entry);
     f_bytes_base64 := b64encode (e_data entry) |}.

Definition _collect_files (workdir : list Entry) (max_file_bytes : PyInt)
    : list FileArtifact :=
  List.map artifact (List.filter (collectable max_file_bytes) (sorted_by_name workdir)).

Definition has_marker (line : string) : bool :=
  contains "error:" line || contains "fatal" line.

Definition _log_has_errors (log_text : string) : bool :=
  let lower_lines := List.map lower (splitlines log_text) in
  existsb has_marker lower_lines.

Definition _log_relevant_excerpt (log_text : string) (limit_lines : Z) : string :=
  let lines := splitlines log_text in
  let relevant := List.filter (fun line => has_marker (lower line)) lines in
  match relevant with
  | _ :: _ => join nl (take limit_lines relevant)
  | [] => join nl (take limit_lines lines)
  end.

(** [tempfile.TemporaryDirectory(prefix="autosage_ngspice_")] as a context
    manager: a fresh empty directory, removed on every way out. *)
Definition mkdtemp (w : World) : string * World :=
  let path := "/tmp/autosage_ngspice_" +:+ pretty (w_tmp w) in
  (path,
   {| w_clock := w_clock w; w_spawns := w_spawns w; w_dir := [];
      w_tmp := S (w_tmp w); w_trace := w_trace w ++ [EMkdtemp path] |}).

Definition rmtree (path : string) (w : World) : World :=
  log (ERmtree path) (set_dir [] w).

Definition TemporaryDirectory {A} (body : string -> M A) : M A :=
  fun w =>
    let (tmp, w0) := mkdtemp w in
    match body tmp w0 with
    | Ret a w1 => Ret a (rmtree tmp w1)
    | Raise e w1 => Raise e (rmtree tmp w1)
    | Hang w1 => Hang w1
    end.

(** [(cwd / name).write_text(text, encoding="utf-8")] *)
Definition write_text (name text : string) : M unit :=
  fun w =>
    Ret tt (log (EWriteText name text)
              (set_dir (write_entry {| e_name := name; e_is_file := true;
                                       e_data := encode_utf8 text |} (w_dir w)) w)).

(** [log_path.read_text(encoding="utf-8", errors="replace") if
    log_path.exists() else ""] *)
Definition read_log (name : string) : M string :=
  fun w =>
    match List.find (fun e => String.eqb (e_name e) name) (w_dir w) with
    | None => Ret "" w
    | Some e => Ret (decode_utf8 (e_data e)) w
    end.

(** [_collect_files(cwd, max_file_bytes)] on the current directory. *)
Definition collect (max_file_bytes : PyInt) : M (list FileArtifact) :=
  fun w => Ret (_collect_files (w_dir w) max_file_bytes) w.

(** [cfg[key]] used where an [int] is expected. *)
Definition cfg_int (cfg : gmap string PyVal) (key : string) : M PyInt :=
  match cfg !! key with
  | Some (VInt i) => ret i
  | Some _ => raise (EOther "TypeError")
  | None => raise (EOther "KeyError")
  end.

(** [run_process(argv, cwd=str(cwd), timeout_ms=cfg["timeout_ms"],
    max_stdout_bytes=cfg["max_stdout_bytes"],
    max_stderr_bytes=cfg["max_stderr_bytes"])] *)
Definition run_with (cfg : gmap string PyVal) (argv : list string) (cwd : string)
    : M (string * string * Z * Z) :=
  timeout_ms <- cfg_int cfg "timeout_ms" ;;
  max_stdout_bytes <- cfg_int cfg "max_stdout_bytes" ;;
  max_stderr_bytes <- cfg_int cfg "max_stderr_bytes" ;;
  run_process argv cwd timeout_ms max_stdout_bytes max_stderr_bytes.

(** [except RunnerError as exc: return _error_response(...)] *)
Definition runner_failed (exc : RunnerError) : M Envelope :=
  ret (_error_response (error_type exc) (message exc) (Some (details exc))).

Definition failure (type message : string) (details : gmap string PyVal) : ErrorInfo :=
  {| err_type := type; err_message := message; err_details := details |}.

Definition version (limits : option (gmap string PyVal)) : M Envelope :=
  let cfg := _build_limits limits in
  TemporaryDirectory (fun cwd =>
    try_runner
      (r <- run_with cfg ["ngspice"; "-v"] cwd ;;
       r <- (if negb (snd (fst r) =? 0)
             then run_with cfg ["ngspice"; "-V"] cwd
             else ret r) ;;
       let '(stdout, stderr, exit_code, elapsed_ms) := r in
       let ok := exit_code =? 0 in
       ret (_response ok stdout stderr [] elapsed_ms exit_code
              (if ok then None
               else Some (failure "process_failed" "ngspice version command failed." ∅))))
      runner_failed).

Definition smoke_netlist : string :=
  join nl [ "* ngspice smoke test"; "V1 in 0 DC 1"; "R1 in out 1k";
            "C1 out 0 1u"; ".tran 1u 1m"; ".end"; "" ].

Definition smoketest (limits : option (gmap string PyVal)) : M Envelope :=
  let cfg := _build_limits limits in
  TemporaryDirectory (fun cwd =>
    _ <- write_text "smoke.cir" smoke_netlist ;;
    try_runner
      (r <- run_with cfg ["ngspice"; "-b"; "-r"; "smoke.raw"; "-o"; "smoke.log"; "smoke.cir"] cwd ;;
       let '(stdout, stderr, exit_code, elapsed_ms) := r in
       max_file_bytes <- cfg_int cfg "max_file_bytes" ;;
       files <- collect max_file_bytes ;;
       let ok := (exit_code =? 0) && (0 <? Z.of_nat (length files)) in
       let error :=
         if negb ok
         then Some (failure "process_failed" "ngspice smoketest failed." ∅)
         else None in
       ret (_response ok stdout stderr files elapsed_ms exit_code error))
      runner_failed).

Definition validate_netlist (netlist_text : PyVal)
    (limits : option (gmap string PyVal)) : M Envelope :=
  let cfg := _build_limits limits in
  let invalid :=
    ret (_error_response "invalid_input" "netlist_text must be a non-empty string."
           (Some ∅)) in
  match netlist_text with
  | VStr text =>
      if String.eqb (strip text) "" then invalid
      else
        TemporaryDirectory (fun cwd =>
          _ <- write_text "input.cir" text ;;
          try_runner
            (r <- run_with cfg ["ngspice"; "-b"; "-o"; "validate.log"; "input.cir"] cwd ;;
             let '(stdout, stderr, exit_code, elapsed_ms) := r in
             log_text <- read_log "validate.log" ;;
             let has_log_errors := _log_has_errors log_text in
             let ok := (exit_code =? 0) && negb has_log_errors in
             max_file_bytes <- cfg_int cfg "max_file_bytes" ;;
             files <- collect max_file_bytes ;;
             let error :=
               if negb ok then
                 let details : gmap string PyVal := {[ "exit_code" := VInt (PInt exit_code) ]} in
                 let details :=
                   if negb (String.eqb log_text "")
                   then <["log_excerpt" := VStr (_log_relevant_excerpt log_text 50)]> details
                   else details in
                 Some (failure "validation_failed" "ngspice reported validation errors." details)
               else None in
             ret (_response ok stdout stderr files elapsed_ms exit_code error))
            runner_failed)
  | _ => invalid
  end.

End Ngspice.

(** ** server.py *)

(** [REGISTRY]: the tools and operations that [GET /tools] announces, with the
    schema of each operation's inputs. *)
Definition REGISTRY : gmap string PyVal :=
  {[ "ngspice" :=
       VDict {[ "ops" :=
         VDict {[ "version" :=
                    VDict {[ "inputs_schema" :=
                      VDict {[ "type" := VStr "object"; "properties" := VDict ∅ ]} ]};
                  "smoketest" :=
                    VDict {[ "inputs_schema" :=
                      VDict {[ "type" := VStr "object"; "properties" := VDict ∅ ]} ]};
                  "validate_netlist" :=
                    VDict {[ "inputs_schema" :=
                      VDict {[ "type" := VStr "object";
                               "required" := VList [VStr "netlist_text"];
                               "properties" :=
                                 VDict {[ "netlist_text" :=
                                   VDict {[ "type" := VStr "string" ]} ]} ]} ]} ]} ]} ]}.

Section Server.
Context {lib : PyLib}.

Definition error_response (error_type message : string)
    (details : option (gmap string PyVal)) : Envelope :=
  {| ok := false; stdout := ""; stderr := ""; files := [];
     metrics := {| elapsed_ms := 0; exit_code := -1 |};
     error := Some {| err_type := error_type; err_message := message;
                      err_details := or_empty details |} |}.

Definition OPS : list string := ["version"; "smoketest"; "validate_netlist"].

Definition handle_run (payload : PyVal) : M Envelope :=
  match payload with
  | VDict p =>
      let tool := dict_get p "tool" in
      let op := dict_get p "op" in
      let inputs := py_or (dict_get p "inputs") (VDict ∅) in
      let limits := py_or (dict_get p "limits") (VDict ∅) in
      if negb (eq_str tool "ngspice")
      then ret (error_response "unknown_tool" "Unsupported tool." (Some {[ "tool" := tool ]}))
      else if negb (hashable op)
      then raise (EOther "TypeError")
      else if negb (existsb (eq_str op) OPS)
      then ret (error_response "unknown_op" "Unsupported operation." (Some {[ "op" := op ]}))
      else
        match inputs with
        | VDict inputs =>
            match limits with
            | VDict limits =>
                if eq_str op "version" then version (Some limits)
                else if eq_str op "smoketest" then smoketest (Some limits)
                else
                  let netlist_text := dict_get inputs "netlist_text" in
                  validate_netlist netlist_text (Some limits)
            | _ => ret (error_response "invalid_request" "limits must be an object." None)
            end
        | _ => ret (error_response "invalid_request" "inputs must be an object." None)
        end
  | _ => ret (error_response "invalid_request" "Request body must be a JSON object." None)
  end.

End Server.

(** ** A concrete library, for running the model

    Exact on ASCII data: bytes and characters are identified, [.txt] is the
    one extension with a known MIME type, and base64 is the standard one. *)

Definition b64_alphabet : string :=
  "ABCDEFGHIJKLMNOPQRSTUVWXYZabcdefghijklmnopqrstuvwxyz0123456789+/".

Definition b64_char (n : N) : ascii :=
  match String.get (N.to_nat n) b64_alphabet with
  | Some c => c
  | None => "="%char
  end.

Fixpoint b64_groups (l : list N) : string :=
  match l with
  | a :: b :: c :: r =>
      String (b64_char (a / 4))
        (String (b64_char ((a mod 4) * 16 + b / 16))
           (String (b64_char ((b mod 16) * 4 + c / 64))
              (String (b64_char (c mod 64)) (b64_groups r))))%N
  | [a; b] =>
      String (b64_char (a / 4))
        (String (b64_char ((a mod 4) * 16 + b / 16))
           (String (b64_char ((b mod 16) * 4)) "="))%N
  | [a] =>
      String (b64_char (a / 4)) (String (b64_char ((a mod 4) * 16)) "==")%N
  | [] => ""
  end.

Definition ascii_lib : PyLib :=
  {| decode_utf8 := fun data => string_of_list_ascii (List.map ascii_of_byte data);
     encode_utf8 := fun text => List.map byte_of_ascii (list_ascii_of_string text);
     guess_type := fun name =>
       if String.eqb (lower (suffix name)) ".txt" then Some "text/plain" else None;
     b64encode := fun data => b64_groups (List.map Byte.to_N data) |}.

(** ** Sample worlds, children and files *)

(** The bytes of an ASCII text. *)
Definition bytes (text : string) : list byte :=
  List.map byte_of_ascii (list_ascii_of_string text).

(** A world at time zero with an empty directory. *)
Definition world0 (spawns : list Spawn) : World :=
  {| w_clock := 0; w_spawns := spawns; w_dir := []; w_tmp := 0; w_trace := [] |}.

(** A round in which nothing is ready. *)
Definition idle : Round := {| r_wait := 0; r_events := [] |}.

(** Sleeps for a minute without writing anything, then exits; it dies 1 ms
    after being asked to. *)
Definition sleeper : Child :=
  {| c_rounds := [idle; idle; idle]; c_exit_at := Some 60000000; c_exit_code := 0;
     c_term_delay := Some 1000; c_files := [] |}.

(** Closes both pipes at once and exits after a minute. *)
Definition detached : Child :=
  {| c_rounds := []; c_exit_at := Some 60000000; c_exit_code := 0;
     c_term_delay := Some 1000; c_files := [] |}.

(** Closes both pipes at once and never exits. *)
Definition immortal : Child :=
  {| c_rounds := []; c_exit_at := None; c_exit_code := 0;
     c_term_delay := None; c_files := [] |}.

(** Writes eleven bytes to stdout and four to stderr, leaves two files and
    exits with code 3. *)
Definition talker : Child :=
  {| c_rounds :=
       [ {| r_wait := 10;
            r_events := [(Stdout, Chunk (bytes "hello")); (Stderr, Chunk (bytes "oops"))] |};
         {| r_wait := 10; r_events := [(Stdout, Chunk (bytes " world"))] |} ];
     c_exit_at := Some 40; c_exit_code := 3; c_term_delay := None;
     c_files :=
       [ {| e_name := "validate.log"; e_is_file := true; e_data := bytes "Error: bad" |};
         {| e_name := "a.TXT"; e_is_file := true; e_data := bytes "x" |} ] |}.

(** Exits with code 1 without writing anything. *)
Definition failing : Child :=
  {| c_rounds := []; c_exit_at := Some 1000; c_exit_code := 1; c_term_delay := Some 100;
     c_files := [] |}.

(** Prints a version line and exits with code 0 after 3 ms. *)
Definition quick : Child :=
  {| c_rounds := [ {| r_wait := 2000;
                      r_events := [(Stdout, Chunk (bytes "ngspice-42"))] |} ];
     c_exit_at := Some 3000; c_exit_code := 0; c_term_delay := Some 100;
     c_files := [] |}.

(** A log file with an upper-case extension. *)
Definition upper_log : Entry :=
  {| e_name := "OUT.LOG"; e_is_file := true; e_data := bytes "ok" |}.

(** ** Statements about traces and the read loop *)

(** The [Popen] calls of a trace. *)
Definition is_popen (e : Effect) : bool :=
  match e with
  | EPopen _ _ => true
  | _ => false
  end.

Definition popens (tr : list Effect) : list Effect := List.filter is_popen tr.

Definition channel_eqb (a b : Channel) : bool :=
  match a, b with
  | Stdout, Stdout | Stderr, Stderr => true
  | _, _ => false
  end.

(** The bytes a trace shows to have been read from a stream. *)
Fixpoint reads (ch : Channel) (tr : list Effect) : list byte :=
  match tr with
  | [] => []
  | ERead ch' r :: tr' =>
      if channel_eqb ch ch' then chunk_of r ++ reads ch tr' else reads ch tr'
  | _ :: tr' => reads ch tr'
  end.

(** The effects of the loop: bounded readiness waits and reads. *)
Definition loop_effect (e : Effect) : Prop :=
  match e with
  | ESelect blocked => 0 <= blocked <= poll_us
  | ERead _ _ => True
  | _ => False
  end.

(** A buffer and its flag after [emitted] was read under the cap. *)
Definition captured (cap : Z) (emitted buf : list byte) (truncated : bool) : Prop :=
  buf = take cap emitted /\ truncated = (cap <? Z.of_nat (length emitted)).

(** The invariant of the read loop, [tr] being the effects so far. *)
Definition loop_inv (max_stdout_bytes max_stderr_bytes : Z) (st : Loop) (tr : list Effect) : Prop :=
  captured max_stdout_bytes (reads Stdout tr) (stdout_buf st) (stdout_truncated st)
  /\ captured max_stderr_bytes (reads Stderr tr) (stderr_buf st) (stderr_truncated st).

(** What a run of the loop leaves unchanged or grown. *)
Record loop_run (mo me : Z) (st : Loop) (w : World) (tr : list Effect)
    (st' : Loop) (w' : World) (tr' : list Effect) : Prop := {
  run_trace : w_trace w' = w_trace w ++ tr';
  run_effects : Forall loop_effect tr';
  run_inv : loop_inv mo me st' (tr ++ tr');
  run_spawns : w_spawns w' = w_spawns w;
  run_dir : w_dir w' = w_dir w;
  run_tmp : w_tmp w' = w_tmp w;
  run_clock : w_clock w <= w_clock w'
}.


(** A lower bound of the time a round takes: a round without events blocks
    for the whole poll interval. *)
Definition round_time (r : Round) : Z :=
  match r_events r with
  | [] => poll_us
  | _ :: _ => Z.min (Z.max 0 (r_wait r)) poll_us
  end.

(** A lower bound of the time the rounds of a script take together. *)
Definition script_time (rounds : list Round) : Z :=
  fold_right (fun r acc => round_time r + acc) 0 rounds.

(** A read on [ch] that does not find the stream closed. *)
Definition stays_open (ch : Channel) (ev : Channel * ReadResult) : Prop :=
  fst ev = ch -> chunk_of (snd ev) <> [].

(** No read of the script finds [ch] closed. *)
Definition keeps_open (ch : Channel) (rounds : list Round) : Prop :=
  Forall (fun r => Forall (stays_open ch) (r_events r)) rounds.

(** The child does not exit on its own before [t] microseconds. *)
Definition alive_until (c : Child) (t : Z) : Prop :=
  match c_exit_at c with
  | Some x => t <= x
  | None => True
  end.

(** Asked to terminate at [now], the child is gone within the grace period. *)
Definition gone_in_time (c : Child) (start now : Z) : bool :=
  match gone_at c start now with
  | Some t => t <=? now + grace_us
  | None => false
  end.

(** The time a trace shows to have been spent blocked. *)
Fixpoint waited (tr : list Effect) : Z :=
  match tr with
  | [] => 0
  | ESelect blocked :: tr' => blocked + waited tr'
  | EWaitFor _ blocked :: tr' => blocked + waited tr'
  | EWait blocked :: tr' => blocked + waited tr'
  | _ :: tr' => waited tr'
  end.

(** The bytes that the reads of a round deliver on a stream. *)
Definition bytes_on (ch : Channel) (events : list (Channel * ReadResult)) : list byte :=
  flat_map (fun ev => if channel_eqb ch (fst ev) then chunk_of (snd ev) else []) events.

(** The bytes that a script emits on a stream. *)
Definition emitted (ch : Channel) (rounds : list Round) : list byte :=
  flat_map (fun r => bytes_on ch (r_events r)) rounds.




(** ** Statements about envelopes and directories *)

(** [error] is present exactly when [ok] is false. *)
Definition error_iff_not_ok (env : Envelope) : Prop :=
  error env <> None <-> ok env = false.

(** An operation answers [invalid_request] with zero metrics and leaves the
    [Popen] calls of the trace and the pending processes as they were. *)
Definition rejected_without_spawn (op : M Envelope) (w : World) : Prop :=
  exists env w',
    op w = Ret env w'
    /\ ok env = false
    /\ (exists msg d, error env = Some (failure "invalid_request" msg d))
    /\ metrics env = {| elapsed_ms := 0; exit_code := -1 |}
    /\ popens (w_trace w') = popens (w_trace w)
    /\ w_spawns w' = w_spawns w.

(** The envelope made from a [RunnerError]. *)
Definition runner_envelope (e : RunnerError) : Envelope :=
  {| ok := false; stdout := ""; stderr := ""; files := [];
     metrics := {| elapsed_ms := 0; exit_code := -1 |};
     error := Some {| err_type := error_type e; err_message := message e;
                      err_details := details e |} |}.

(** The error of a version command that exits with a non-zero code. *)
Definition version_failed : ErrorInfo :=
  {| err_type := "process_failed"; err_message := "ngspice version command failed.";
     err_details := ∅ |}.

(** Entries in ascending order of their names. *)
Definition entries_sorted : list Entry -> Prop :=
  StronglySorted (fun a b => String.leb (e_name a) (e_name b) = true).

(** ** Statements about runs, limits and requests *)

(** [run_process] accepts its arguments: a command line that is not empty
    and three positive limits. *)
Definition valid_arguments (argv : list string) (t mo me : PyInt) : bool :=
  match argv with [] => false | _ :: _ => true end
  && (0 <? int_value t) && (0 <? int_value mo) && (0 <? int_value me).

(** [process.terminate()] and [process.kill()]. *)
Definition is_kill_or_terminate (e : Effect) : bool :=
  match e with
  | ETerminate | EKill => true
  | _ => false
  end.

(** Making and removing a temporary directory. *)
Definition is_tempdir_effect (e : Effect) : bool :=
  match e with
  | EMkdtemp _ | ERmtree _ => true
  | _ => false
  end.

(** The keys of [DEFAULT_LIMITS]. *)
Definition LIMIT_KEYS : list string := List.map fst DEFAULT_LIMITS.

(** The command line of [smoketest]. *)
Definition SMOKE_ARGV : list string :=
  ["ngspice"; "-b"; "-r"; "smoke.raw"; "-o"; "smoke.log"; "smoke.cir"].

(** The command line of [validate_netlist]. *)
Definition VALIDATE_ARGV : list string :=
  ["ngspice"; "-b"; "-o"; "validate.log"; "input.cir"].

(** The value of [cfg[key]] passed to the runner. *)
Definition limit_of (cfg : gmap string PyVal) (key : string) : PyInt :=
  match cfg !! key with
  | Some (VInt i) => i
  | _ => PInt 0
  end.

(** The runner accepts the three limits that the merge of [limits] gives it. *)
Definition limits_accepted (limits : option (gmap string PyVal)) : bool :=
  let cfg := _build_limits limits in
  (0 <? int_value (limit_of cfg "timeout_ms"))
  && (0 <? int_value (limit_of cfg "max_stdout_bytes"))
  && (0 <? int_value (limit_of cfg "max_stderr_bytes")).

(** The error of a smoke test that exits with a non-zero code or leaves no
    file. *)
Definition smoke_failed : ErrorInfo :=
  {| err_type := "process_failed"; err_message := "ngspice smoketest failed.";
     err_details := ∅ |}.

(** Leaving the [with] block of the temporary directory [tmp] with the
    outcome [r] of the run: the directory is removed unless the run blocks. *)
Definition close {A} (tmp : string) (r : Res A) : World :=
  match r with
  | Ret _ w | Raise _ w => rmtree tmp w
  | Hang w => w
  end.

(** The run blocks for ever. *)
Definition is_hang {A} (r : Res A) : bool :=
  match r with
  | Hang _ => true
  | _ => false
  end.

(** The directory [tmp], made in the world [w], is gone in [w']: between
    making it and removing it no other directory was made or removed. *)
Definition directory_removed (tmp : string) (w w' : World) : Prop :=
  w_dir w' = []
  /\ w_tmp w' = S (w_tmp w)
  /\ exists tr,
      w_trace w' = w_trace w ++ [EMkdtemp tmp] ++ tr ++ [ERmtree tmp]
      /\ List.filter is_tempdir_effect tr = [].

(** The envelope of an executable that is not found. *)
Definition not_found_envelope (argv0 : string) : Envelope :=
  {| ok := false; stdout := ""; stderr := ""; files := [];
     metrics := {| elapsed_ms := 0; exit_code := -1 |};
     error := Some {| err_type := "process_not_found";
                      err_message := "Executable not found: " +:+ argv0;
                      err_details := {[ "argv0" := VStr argv0 ]} |} |}.

(** The envelope of a refused request. *)
Definition refusal (type message : string) (details : gmap string PyVal) : Envelope :=
  {| ok := false; stdout := ""; stderr := ""; files := [];
     metrics := {| elapsed_ms := 0; exit_code := -1 |};
     error := Some {| err_type := type; err_message := message; err_details := details |} |}.

(** [payload.get(key) or {}], when it is an object. *)
Definition object_or_empty (p : gmap string PyVal) (key : string)
    : option (gmap string PyVal) :=
  match py_or (dict_get p key) (VDict ∅) with
  | VDict d => Some d
  | _ => None
  end.

(** [REGISTRY[tool]["ops"]], empty for a tool that is not registered. *)
Definition registered_ops (tool : string) : gmap string PyVal :=
  match REGISTRY !! tool with
  | Some (VDict t) =>
      match t !! "ops" with
      | Some (VDict ops) => ops
      | _ => ∅
      end
  | _ => ∅
  end.

(** A request for the version, without inputs or limits. *)
Definition version_request : gmap string PyVal :=
  {[ "tool" := VStr "ngspice"; "op" := VStr "version" ]}.

(** A validation request whose netlist is a number. *)
Definition number_netlist_request : gmap string PyVal :=
  {[ "tool" := VStr "ngspice"; "op" := VStr "validate_netlist";
     "inputs" := VDict {[ "netlist_text" := VInt (PInt 7) ]} ]}.

(** ** Tactics *)

Ltac break_match_in H :=
  repeat match type of H with
         | context [match ?x with _ => _ end] =>
             lazymatch x with
             | context [match _ with _ => _ end] => fail
             | version _ _ => fail
             | smoketest _ _ => fail
             | validate_netlist _ _ _ => fail
             | negb ?b => destruct b eqn:?; cbn [negb] in H; try discriminate H
             | _ => destruct x eqn:?; try discriminate H
             end
         end.

Ltac conclude_envelope H :=
  injection H as <- <-;
  unfold error_iff_not_ok, _response, _error_response, error_response;
  cbn; split; intros; congruence.

(** * Properties *)

(** ** The limits merge *)

Lemma merge_key_lookup (l merged : gmap string PyVal) (k key : string) :
  merge_key l merged k !! key =
  if decide (k = key) then override l key (merged !! key) else merged !! key.
Proof.
  unfold merge_key, override. destruct (decide (k = key)) as [->|Hne].
  - destruct (l !! key) as [v|]; [|done]. destruct (isinstance_int v); [|done].
    apply lookup_insert_eq.
  - destruct (l !! k) as [v|]; [|done]. destruct (isinstance_int v); [|done].
    by apply lookup_insert_ne.
Qed.

Lemma override_idem l key old :
  override l key (override l key old) = override l key old.
Proof.
  unfold override. destruct (l !! key) as [v|]; [|done].
  by destruct (isinstance_int v).
Qed.

Lemma fold_merge_lookup (l : gmap string PyVal) (keys : list string) :
  forall (merged : gmap string PyVal) (key : string),
    fold_left (merge_key l) keys merged !! key =
    if decide (key ∈ keys) then override l key (merged !! key) else merged !! key.
Proof.
  induction keys as [|k keys IH]; intros merged key; simpl.
  - destruct (decide (key ∈ [])) as [Hin|]; [|done]. by apply elem_of_nil in Hin.
  - rewrite IH, merge_key_lookup.
    repeat case_decide; subst; try done; try (by rewrite override_idem);
      exfalso; set_solver.
Qed.

Lemma build_limits_lookup (limits : option (gmap string PyVal)) (key : string) :
  _build_limits limits !! key =
  match default_of key with
  | None => None
  | Some d =>
      Some match limits ≫= (fun l => l !! key) with
           | Some v => if isinstance_int v then v else d
           | None => d
           end
  end.
Proof.
  unfold _build_limits, default_of. destruct limits as [l|]; cbn [mbind option_bind].
  - unfold truthy. destruct (bool_decide (l = ∅)) eqn:He; cbn [negb].
    + apply bool_decide_eq_true in He. subst l. rewrite lookup_empty.
      by destruct (_ !! key).
    + rewrite fold_merge_lookup. unfold override.
      destruct (decide _) as [Hin|Hout].
      * destruct (list_to_map DEFAULT_LIMITS !! key) as [d|] eqn:Hd.
        -- destruct (l !! key) as [v|]; [|done]. by destruct (isinstance_int v).
        -- exfalso. apply not_elem_of_list_to_map_2 in Hd. by apply Hd.
      * destruct (_ !! key) as [d|] eqn:Hd; [|done]. exfalso. apply Hout.
        apply (elem_of_list_to_map_2 DEFAULT_LIMITS) in Hd.
        apply (list_elem_of_fmap_2 fst) in Hd. exact Hd.
  - by destruct (_ !! key).
Qed.

(** The merged limits hold an [int] instance under each of the four keys. *)
Lemma build_limits_int (limits : option (gmap string PyVal)) (key : string) :
  key ∈ List.map fst DEFAULT_LIMITS ->
  exists i, _build_limits limits !! key = Some (VInt i).
Proof.
  intros Hin. rewrite build_limits_lookup.
  assert (exists d, default_of key = Some (VInt d)) as [d ->].
  { repeat (apply elem_of_cons in Hin as [->|Hin]; [by eexists|]).
    by apply elem_of_nil in Hin. }
  destruct (limits ≫= _) as [v|]; [|by eexists].
  destruct v; simpl; by eexists.
Qed.

(** C8, as amended: the effective limits are the defaults
    [timeout_ms = 10000], [max_stdout_bytes = 1000000],
    [max_stderr_bytes = 1000000], [max_file_bytes = 10000000], where a
    default is replaced exactly when the override holds under the same key
    an instance of Python's [int], which a boolean is too; keys without a
    default never enter the result and other values are ignored. *)
Theorem build_limits_replaces_int_instances
    (limits : option (gmap string PyVal)) (key : string) :
  _build_limits limits !! key =
    match default_of key with
    | None => None
    | Some d =>
        Some match limits ≫= (fun l => l !! key) with
             | Some v => if isinstance_int v then v else d
             | None => d
             end
    end
  /\ default_of "timeout_ms" = Some (VInt (PInt 10000))
  /\ default_of "max_stdout_bytes" = Some (VInt (PInt 1000000))
  /\ default_of "max_stderr_bytes" = Some (VInt (PInt 1000000))
  /\ default_of "max_file_bytes" = Some (VInt (PInt 10000000))
  /\ (is_Some (default_of key) <->
      key ∈ ["timeout_ms"; "max_stdout_bytes"; "max_stderr_bytes"; "max_file_bytes"]).
Proof.
  split; [apply build_limits_lookup|].
  repeat (split; [reflexivity|]).
  unfold default_of. split.
  - intros [d Hd]. apply (elem_of_list_to_map_2 DEFAULT_LIMITS) in Hd.
    apply (list_elem_of_fmap_2 fst) in Hd. exact Hd.
  - intros Hin.
    repeat (apply elem_of_cons in Hin as [->|Hin]; [by eexists|]).
    by apply elem_of_nil in Hin.
Qed.

(** C8, counterexample: the override [{"timeout_ms": True}] carries a
    boolean, not an integer, and still replaces the default. *)
Lemma build_limits_bool_counterexample :
  let limits : gmap string PyVal := {[ "timeout_ms" := VInt (PBool true) ]} in
  limits !! "timeout_ms" = Some (VInt (PBool true))
  /\ _build_limits (Some limits) !! "timeout_ms" = Some (VInt (PBool true))
  /\ _build_limits (Some limits) !! "timeout_ms" <> default_of "timeout_ms".
Proof. vm_compute. repeat split; congruence. Qed.

(** ** Argument checks of the runner *)

Section ArgumentChecks.
Context {lib : PyLib}.

(** C5: a call of [run_process] with an empty [argv], a non-positive
    [timeout_ms] or a non-positive byte cap raises a [RunnerError] of type
    [invalid_request] in the very world it was called in: nothing was
    spawned, nothing else was done. *)
Theorem run_process_rejects_invalid_arguments
    (argv : list string) (cwd : string)
    (timeout_ms max_stdout_bytes max_stderr_bytes : PyInt) (w : World) :
  argv = [] \/ int_value timeout_ms <= 0
  \/ int_value max_stdout_bytes <= 0 \/ int_value max_stderr_bytes <= 0 ->
  exists e,
    run_process argv cwd timeout_ms max_stdout_bytes max_stderr_bytes w
      = Raise (ERunner e) w
    /\ error_type e = "invalid_request".
Proof.
  intros H. unfold run_process. destruct argv as [|argv0 argv].
  - eexists. split; reflexivity.
  - destruct (Z.leb_spec (int_value timeout_ms) 0).
    + eexists. split; reflexivity.
    + destruct (Z.leb_spec (int_value max_stdout_bytes) 0); cbn [orb].
      * eexists. split; reflexivity.
      * destruct (Z.leb_spec (int_value max_stderr_bytes) 0).
        -- eexists. split; reflexivity.
        -- exfalso. destruct H as [H|[H|[H|H]]]; [discriminate|lia..].
Qed.

Lemma run_with_rejects (cfg : gmap string PyVal) (argv : list string) (cwd : string)
    (t mo me : PyInt) (w : World) :
  cfg !! "timeout_ms" = Some (VInt t) ->
  cfg !! "max_stdout_bytes" = Some (VInt mo) ->
  cfg !! "max_stderr_bytes" = Some (VInt me) ->
  argv <> [] ->
  int_value t <= 0 \/ int_value mo <= 0 \/ int_value me <= 0 ->
  exists e, run_with cfg argv cwd w = Raise (ERunner e) w
            /\ error_type e = "invalid_request".
Proof.
  intros Ht Hmo Hme Hargv Hbad. unfold run_with, bind, cfg_int.
  rewrite Ht, Hmo, Hme. unfold ret.
  destruct argv as [|a argv]; [done|].
  unfold run_process.
  destruct (Z.leb_spec (int_value t) 0); [by eexists|].
  destruct (Z.leb_spec (int_value mo) 0); cbn [orb]; [by eexists|].
  destruct (Z.leb_spec (int_value me) 0); [by eexists|]. lia.
Qed.


Lemma popens_app (a b : list Effect) : popens (a ++ b) = popens a ++ popens b.
Proof. unfold popens. apply List.filter_app. Qed.

Lemma build_limits_rejecting (l : gmap string PyVal) (key : string) (z : Z) :
  key ∈ ["timeout_ms"; "max_stdout_bytes"; "max_stderr_bytes"] ->
  l !! key = Some (VInt (PInt z)) -> z <= 0 ->
  exists t mo me,
    _build_limits (Some l) !! "timeout_ms" = Some (VInt t)
    /\ _build_limits (Some l) !! "max_stdout_bytes" = Some (VInt mo)
    /\ _build_limits (Some l) !! "max_stderr_bytes" = Some (VInt me)
    /\ (int_value t <= 0 \/ int_value mo <= 0 \/ int_value me <= 0).
Proof.
  intros Hin Hl Hz.
  destruct (build_limits_int (Some l) "timeout_ms") as [t Ht]; [set_solver|].
  destruct (build_limits_int (Some l) "max_stdout_bytes") as [mo Hmo]; [set_solver|].
  destruct (build_limits_int (Some l) "max_stderr_bytes") as [me Hme]; [set_solver|].
  exists t, mo, me. repeat (split; [assumption|]).
  assert (_build_limits (Some l) !! key = Some (VInt (PInt z))) as Hk.
  { rewrite build_limits_lookup. cbn [mbind option_bind]. rewrite Hl. cbn.
    destruct (default_of key) eqn:Hd; [done|]. exfalso.
    repeat (apply elem_of_cons in Hin as [->|Hin]; [by vm_compute in Hd|]).
    by apply elem_of_nil in Hin. }
  repeat (apply elem_of_cons in Hin as [->|Hin];
          [rewrite Hk in *; simplify_eq; simpl; tauto|]).
  by apply elem_of_nil in Hin.
Qed.

(** C10: a caller-supplied non-positive integer under [timeout_ms],
    [max_stdout_bytes] or [max_stderr_bytes] survives the merge, is refused by
    the argument check of the runner, and [version], [smoketest] and
    [validate_netlist] on a non-blank netlist each return an envelope with
    [ok = false], error type [invalid_request] and metrics
    [{elapsed_ms: 0, exit_code: -1}] without any [Popen]. *)
Theorem non_positive_limit_rejected_without_spawn
    (l : gmap string PyVal) (key : string) (z : Z) (text : string) (w : World) :
  key ∈ ["timeout_ms"; "max_stdout_bytes"; "max_stderr_bytes"] ->
  l !! key = Some (VInt (PInt z)) ->
  z <= 0 ->
  strip text <> "" ->
  rejected_without_spawn (version (Some l)) w
  /\ rejected_without_spawn (smoketest (Some l)) w
  /\ rejected_without_spawn (validate_netlist (VStr text) (Some l)) w.
Proof.
  intros Hin Hl Hz Htext.
  destruct (build_limits_rejecting l key z Hin Hl Hz) as (t & mo & me & Ht & Hmo & Hme & Hbad).
  pose proof (fun argv cwd w0 Hargv =>
    run_with_rejects (_build_limits (Some l)) argv cwd t mo me w0 Ht Hmo Hme Hargv Hbad) as Hrun.
  unfold rejected_without_spawn. repeat split.
  - unfold version, TemporaryDirectory, try_runner, bind.
    destruct (mkdtemp w) as [tmp w0] eqn:Hmk.
    destruct (Hrun ["ngspice"; "-v"] tmp w0) as (e & He & Hty); [done|].
    rewrite He. unfold runner_failed, ret.
    eexists _, _. split; [reflexivity|].
    repeat split; try reflexivity.
    + eexists _, _. cbn. unfold failure. rewrite Hty. reflexivity.
    + injection Hmk as <- <-. cbn. by rewrite !popens_app, !app_nil_r.
    + injection Hmk as <- <-. reflexivity.
  - unfold smoketest, TemporaryDirectory, try_runner, bind, write_text.
    destruct (mkdtemp w) as [tmp w0] eqn:Hmk.
    match goal with |- context [run_with _ ?argv tmp ?w1] =>
      destruct (Hrun argv tmp w1) as (e & He & Hty); [done|] end.
    rewrite He. unfold runner_failed, ret.
    eexists _, _. split; [reflexivity|].
    repeat split; try reflexivity.
    + eexists _, _. cbn. unfold failure. rewrite Hty. reflexivity.
    + injection Hmk as <- <-. cbn. by rewrite !popens_app, !app_nil_r.
    + injection Hmk as <- <-. reflexivity.
  - unfold validate_netlist.
    destruct (String.eqb_spec (strip text) "") as [|_]; [done|].
    unfold TemporaryDirectory, try_runner, bind, write_text.
    destruct (mkdtemp w) as [tmp w0] eqn:Hmk.
    match goal with |- context [run_with _ ?argv tmp ?w1] =>
      destruct (Hrun argv tmp w1) as (e & He & Hty); [done|] end.
    rewrite He. unfold runner_failed, ret.
    eexists _, _. split; [reflexivity|].
    repeat split; try reflexivity.
    + eexists _, _. cbn. unfold failure. rewrite Hty. reflexivity.
    + injection Hmk as <- <-. cbn. by rewrite !popens_app, !app_nil_r.
    + injection Hmk as <- <-. reflexivity.
Qed.


End ArgumentChecks.

Lemma run_process_rejects_invalid_arguments_witness :
  exists e,
    run_process (lib := ascii_lib) ["ngspice"; "-v"] "/tmp" (PInt 0) (PInt 10) (PInt 10)
      (world0 [Spawned quick]) = Raise (ERunner e) (world0 [Spawned quick])
    /\ error_type e = "invalid_request".
Proof.
  apply (run_process_rejects_invalid_arguments (lib := ascii_lib)).
  right. left. simpl. lia.
Defined.

Lemma non_positive_limit_rejected_witness :
  let l : gmap string PyVal := {[ "max_stderr_bytes" := VInt (PInt (-4)) ]} in
  let w := world0 [Spawned quick] in
  rejected_without_spawn (version (lib := ascii_lib) (Some l)) w
  /\ rejected_without_spawn (smoketest (lib := ascii_lib) (Some l)) w
  /\ rejected_without_spawn
       (validate_netlist (lib := ascii_lib) (VStr "R1 a b 1k") (Some l)) w.
Proof.
  apply (non_positive_limit_rejected_without_spawn (lib := ascii_lib)
           {[ "max_stderr_bytes" := VInt (PInt (-4)) ]} "max_stderr_bytes" (-4)).
  - set_solver.
  - reflexivity.
  - lia.
  - vm_compute. discriminate.
Defined.

(** ** The envelope invariant *)

Section EnvelopeInvariant.
Context {lib : PyLib}.

Lemma version_error_iff_not_ok limits w env w' :
  version limits w = Ret env w' -> error_iff_not_ok env.
Proof.
  unfold version, TemporaryDirectory, try_runner, bind, runner_failed, ret.
  intros H. break_match_in H; conclude_envelope H.
Qed.

Lemma smoketest_error_iff_not_ok limits w env w' :
  smoketest limits w = Ret env w' -> error_iff_not_ok env.
Proof.
  unfold smoketest, TemporaryDirectory, try_runner, bind, runner_failed, ret, collect.
  intros H. break_match_in H; conclude_envelope H.
Qed.

Lemma validate_netlist_error_iff_not_ok netlist_text limits w env w' :
  validate_netlist netlist_text limits w = Ret env w' -> error_iff_not_ok env.
Proof.
  unfold validate_netlist, TemporaryDirectory, try_runner, bind, runner_failed, ret, collect.
  intros H. break_match_in H; conclude_envelope H.
Qed.

Lemma handle_run_error_iff_not_ok payload w env w' :
  handle_run payload w = Ret env w' -> error_iff_not_ok env.
Proof.
  unfold handle_run, ret, raise. intros H.
  break_match_in H;
    eauto using version_error_iff_not_ok, smoketest_error_iff_not_ok,
      validate_netlist_error_iff_not_ok;
    conclude_envelope H.
Qed.


(** C2: in every envelope returned by [version], [smoketest],
    [validate_netlist] or [handle_run], [error] is present (an object with
    type, message and details) if and only if [ok] is false. *)
Theorem envelope_error_iff_not_ok
    (payload netlist_text : PyVal) (limits : option (gmap string PyVal))
    (w w' : World) (env : Envelope) :
  version limits w = Ret env w'
  \/ smoketest limits w = Ret env w'
  \/ validate_netlist netlist_text limits w = Ret env w'
  \/ handle_run payload w = Ret env w' ->
  error env <> None <-> ok env = false.
Proof.
  intros H. change (error_iff_not_ok env).
  destruct H as [H|[H|[H|H]]];
    eauto using version_error_iff_not_ok, smoketest_error_iff_not_ok,
      validate_netlist_error_iff_not_ok, handle_run_error_iff_not_ok.
Qed.

End EnvelopeInvariant.

Lemma envelope_error_iff_not_ok_witness :
  exists env w',
    version (lib := ascii_lib) None (world0 [Spawned quick]) = Ret env w'
    /\ (error env <> None <-> ok env = false).
Proof.
  eexists _, _. split; [vm_compute; reflexivity|].
  eapply (envelope_error_iff_not_ok (lib := ascii_lib) VNone VNone None
            (world0 [Spawned quick])).
  left. vm_compute. reflexivity.
Defined.


(** ** Request shape checks of the dispatcher *)

Section RequestShape.
Context {lib : PyLib}.

Lemma eq_str_inv v s : eq_str v s = true -> v = VStr s.
Proof.
  destruct v; simpl; try discriminate. intros H.
  apply String.eqb_eq in H. by subst.
Qed.

(** C6, as amended: for a payload that is an object, names the tool
    [ngspice] and one of the three operations, and whose [inputs] or [limits]
    is a truthy value that is not an object (a non-empty list or string, a
    non-zero number, [true]), [handle_run] returns, without doing anything
    else, the envelope with [ok = false], error type [invalid_request], empty
    stdout, stderr and files, and metrics [{elapsed_ms: 0, exit_code: -1}]. *)
Theorem handle_run_rejects_non_object_inputs_or_limits
    (p : gmap string PyVal) (w : World) :
  eq_str (dict_get p "tool") "ngspice" = true ->
  existsb (eq_str (dict_get p "op")) OPS = true ->
  (truthy (dict_get p "inputs") = true /\ isinstance_dict (dict_get p "inputs") = false)
  \/ (truthy (dict_get p "limits") = true /\ isinstance_dict (dict_get p "limits") = false) ->
  exists msg,
    handle_run (VDict p) w =
    Ret {| ok := false; stdout := ""; stderr := ""; files := [];
           metrics := {| elapsed_ms := 0; exit_code := -1 |};
           error := Some {| err_type := "invalid_request"; err_message := msg;
                            err_details := ∅ |} |} w.
Proof.
  intros Htool Hop Hbad. unfold handle_run. rewrite Htool, Hop. cbn [negb].
  assert (hashable (dict_get p "op") = true) as ->.
  { apply existsb_exists in Hop as (s & _ & Hs). apply eq_str_inv in Hs.
    by rewrite Hs. }
  cbn [negb]. unfold py_or.
  destruct Hbad as [[Ht Hd]|[Ht Hd]].
  - rewrite Ht. destruct (dict_get p "inputs"); try discriminate Hd;
      by eexists.
  - rewrite Ht.
    destruct (if truthy (dict_get p "inputs") then dict_get p "inputs" else VDict ∅);
      try (by eexists).
    destruct (dict_get p "limits"); try discriminate Hd; by eexists.
Qed.

End RequestShape.

Lemma handle_run_rejects_non_object_witness :
  exists msg,
    handle_run (lib := ascii_lib)
      (VDict {[ "tool" := VStr "ngspice"; "op" := VStr "smoketest";
                "limits" := VList [VInt (PInt 5)] ]}) (world0 []) =
    Ret {| ok := false; stdout := ""; stderr := ""; files := [];
           metrics := {| elapsed_ms := 0; exit_code := -1 |};
           error := Some {| err_type := "invalid_request"; err_message := msg;
                            err_details := ∅ |} |} (world0 []).
Proof.
  apply (handle_run_rejects_non_object_inputs_or_limits (lib := ascii_lib)).
  - reflexivity.
  - reflexivity.
  - right. split; reflexivity.
Defined.

(** C6, counterexample: an empty list for [inputs] is replaced by the
    empty object like an absent field, so the request goes through to
    [validate_netlist], which answers [invalid_input]; and a list for
    [inputs] next to an unknown tool is answered [unknown_tool], the tool
    being checked first. *)
Lemma handle_run_non_object_counterexample :
  (exists env w',
      handle_run (lib := ascii_lib)
        (VDict {[ "tool" := VStr "ngspice"; "op" := VStr "validate_netlist";
                  "inputs" := VList [] ]}) (world0 []) = Ret env w'
      /\ err_type <$> error env = Some "invalid_input")
  /\ (exists env w',
      handle_run (lib := ascii_lib)
        (VDict {[ "tool" := VStr "spice"; "op" := VStr "version";
                  "inputs" := VList [VInt (PInt 1)] ]}) (world0 []) = Ret env w'
      /\ err_type <$> error env = Some "unknown_tool").
Proof. split; eexists _, _; split; vm_compute; reflexivity. Qed.


(** ** Collected files *)

Lemma leb_iff (a b : string) : String.leb a b = true <-> a = b \/ String_as_OT.lt a b.
Proof.
  unfold String.leb. rewrite <- String_as_OT.cmp_lt, <- String_as_OT.cmp_eq.
  unfold String_as_OT.cmp. destruct (String.compare a b); intuition congruence.
Qed.

Lemma leb_trans (a b c : string) :
  String.leb a b = true -> String.leb b c = true -> String.leb a c = true.
Proof.
  rewrite !leb_iff. intros [->|Hab] [->|Hbc]; auto.
  right. eapply String_as_OT.lt_trans; eassumption.
Qed.

Lemma leb_false_flip (a b : string) : String.leb a b = false -> String.leb b a = true.
Proof.
  intros H. destruct (String.leb_total a b) as [H'|H']; congruence.
Qed.

Lemma insert_by_name_perm (e : Entry) (l : list Entry) :
  Permutation (insert_by_name e l) (e :: l).
Proof.
  induction l as [|x l IH]; simpl; [done|].
  destruct (String.leb _ _); [done|].
  rewrite IH. apply perm_swap.
Qed.

Lemma sorted_by_name_perm (l : list Entry) : Permutation (sorted_by_name l) l.
Proof.
  induction l as [|e l IH]; simpl; [done|].
  rewrite insert_by_name_perm. by constructor.
Qed.

Lemma insert_by_name_sorted (e : Entry) (l : list Entry) :
  entries_sorted l -> entries_sorted (insert_by_name e l).
Proof.
  unfold entries_sorted. induction 1 as [|x l Hl IH Hx]; simpl.
  - repeat constructor.
  - destruct (String.leb (e_name e) (e_name x)) eqn:Hle.
    + constructor; [by constructor|]. constructor; [exact Hle|].
      eapply List.Forall_impl; [|exact Hx]. intros y Hy. eapply leb_trans; eassumption.
    + constructor; [exact IH|].
      eapply Permutation_Forall; [symmetry; apply insert_by_name_perm|].
      constructor; [|exact Hx]. by apply leb_false_flip.
Qed.

Lemma sorted_by_name_sorted (l : list Entry) : entries_sorted (sorted_by_name l).
Proof.
  induction l as [|e l IH]; simpl; [constructor|]. by apply insert_by_name_sorted.
Qed.

Lemma filter_sorted (f : Entry -> bool) (l : list Entry) :
  entries_sorted l -> entries_sorted (List.filter f l).
Proof.
  unfold entries_sorted. induction 1 as [|x l Hl IH Hx]; simpl; [constructor|].
  destruct (f x); [|exact IH]. constructor; [exact IH|].
  apply List.Forall_forall. intros y Hy. apply List.filter_In in Hy as [Hy _].
  eapply List.Forall_forall in Hx; eassumption.
Qed.

Lemma filter_perm (f : Entry -> bool) (l l' : list Entry) :
  Permutation l l' -> Permutation (List.filter f l) (List.filter f l').
Proof.
  induction 1 as [|x l l' _ IH|x y l|l l' l'' _ IH1 _ IH2]; simpl.
  - constructor.
  - destruct (f x); [by constructor|exact IH].
  - destruct (f x), (f y); try reflexivity. apply perm_swap.
  - etransitivity; eassumption.
Qed.

Section Collect.
Context {lib : PyLib}.

Lemma collectable_iff (max_file_bytes : PyInt) (e : Entry) :
  collectable max_file_bytes e = true <->
  e_is_file e = true
  /\ In (lower (suffix (e_name e))) [".log"; ".raw"; ".txt"]
  /\ Z.of_nat (length (e_data e)) <= int_value max_file_bytes.
Proof.
  unfold collectable. rewrite !andb_true_iff, negb_true_iff, Z.ltb_ge.
  rewrite existsb_exists. split.
  - intros [[Hf (x & Hx & Heq)] Hs]. apply String.eqb_eq in Heq. subst x. auto.
  - intros (Hf & Hin & Hs). repeat split; auto.
    eexists. split; [exact Hin|]. apply String.eqb_refl.
Qed.

Lemma collect_files_sorted (workdir : list Entry) (max_file_bytes : PyInt) :
  StronglySorted (fun a b => String.leb (f_name a) (f_name b) = true)
    (_collect_files workdir max_file_bytes).
Proof.
  unfold _collect_files.
  pose proof (filter_sorted (collectable max_file_bytes) _ (sorted_by_name_sorted workdir)) as H.
  induction H as [|x l Hl IH Hx]; simpl; constructor; [exact IH|].
  apply List.Forall_map. exact Hx.
Qed.

(** C9, as amended: the collected list has an entry exactly for each
    regular file of the directory whose extension (the part of the name from
    its last dot, that dot being neither the first nor the last character),
    once lower-cased, is one of [.log], [.raw], [.txt] and whose size does
    not exceed [max_file_bytes]; the entry carries the name of the file, the
    MIME type guessed from the name or [application/octet-stream], and the
    base64 encoding of the whole content; the list is a rearrangement of the
    eligible files, one entry each, in ascending order of the names. *)
Theorem collect_files_spec (workdir : list Entry) (max_file_bytes : PyInt) :
  (forall a : FileArtifact,
      In a (_collect_files workdir max_file_bytes) <->
      exists e, In e workdir
                /\ e_is_file e = true
                /\ In (lower (suffix (e_name e))) [".log"; ".raw"; ".txt"]
                /\ Z.of_nat (length (e_data e)) <= int_value max_file_bytes
                /\ a = {| f_name := e_name e;
                          f_mime := match guess_type (e_name e) with
                                    | Some m => if String.eqb m "" then "application/octet-stream" else m
                                    | None => "application/octet-stream"
                                    end;
                          f_bytes_base64 := b64encode (e_data e) |})
  /\ Permutation (_collect_files workdir max_file_bytes)
       (List.map artifact (List.filter (collectable max_file_bytes) workdir))
  /\ StronglySorted (fun a b => String.leb (f_name a) (f_name b) = true)
       (_collect_files workdir max_file_bytes).
Proof.
  split; [|split].
  - intros a. unfold _collect_files. rewrite in_map_iff. split.
    + intros (e & <- & He). apply List.filter_In in He as [He Hc].
      apply collectable_iff in Hc as (Hf & Hx & Hs).
      exists e. repeat split; auto.
      eapply Permutation_in; [apply sorted_by_name_perm|exact He].
    + intros (e & He & Hf & Hx & Hs & ->). exists e. split; [reflexivity|].
      apply List.filter_In. split.
      * eapply Permutation_in; [symmetry; apply sorted_by_name_perm|exact He].
      * apply collectable_iff. auto.
  - unfold _collect_files. apply Permutation_map, filter_perm, sorted_by_name_perm.
  - apply collect_files_sorted.
Qed.

End Collect.

(** C9, counterexample: [OUT.LOG] has the extension [.LOG], which is none
    of [.log], [.raw], [.txt], and is collected all the same. *)
Lemma collect_files_uppercase_counterexample :
  suffix (e_name upper_log) = ".LOG"
  /\ ~ In (suffix (e_name upper_log)) ALLOWED_FILE_EXTENSIONS
  /\ _collect_files (lib := ascii_lib) [upper_log] (PInt 100)
     = [ {| f_name := "OUT.LOG"; f_mime := "application/octet-stream";
            f_bytes_base64 := "b2s=" |} ].
Proof.
  split; [reflexivity|]. split; [|reflexivity].
  simpl. intros [H|[H|[H|[]]]]; discriminate H.
Qed.

(** ** The read loop *)

Lemma reads_app ch a b : reads ch (a ++ b) = reads ch a ++ reads ch b.
Proof.
  induction a as [|e a IH]; simpl; [done|].
  destruct e; try exact IH. destruct (channel_eqb ch ch0); [|exact IH].
  by rewrite IH, app_assoc.
Qed.

Lemma capture_step cap emitted buf truncated chunk :
  0 < cap ->
  captured cap emitted buf truncated ->
  captured cap (emitted ++ chunk)
    (fst (capture cap buf truncated chunk)) (snd (capture cap buf truncated chunk)).
Proof.
  intros Hcap [-> ->]. unfold capture, captured, take. cbn [fst snd].
  rewrite firstn_app, !length_app, length_firstn.
  destruct (Z.ltb_spec 0 (cap - Z.of_nat (Init.Nat.min (Z.to_nat cap) (length emitted)))) as [Hr|Hr].
  - assert (length emitted < Z.to_nat cap)%nat as Hlt by lia.
    replace (Init.Nat.min (Z.to_nat cap) (length emitted)) with (length emitted) in * by lia.
    split.
    + f_equal. f_equal. lia.
    + destruct (Z.ltb_spec (cap - Z.of_nat (length emitted)) (Z.of_nat (length chunk)));
        destruct (Z.ltb_spec cap (Z.of_nat (length emitted + length chunk)));
        destruct (Z.ltb_spec cap (Z.of_nat (length emitted))); try reflexivity; lia.
  - assert (Z.to_nat cap <= length emitted)%nat as Hle by lia.
    replace (Init.Nat.min (Z.to_nat cap) (length emitted)) with (Z.to_nat cap) in * by lia.
    split.
    + replace (Z.to_nat cap - length emitted)%nat with 0%nat by lia.
      simpl. by rewrite app_nil_r.
    + destruct (Z.ltb_spec (cap - Z.of_nat (Z.to_nat cap)) (Z.of_nat (length chunk)));
        destruct (Z.ltb_spec cap (Z.of_nat (length emitted + length chunk)));
        destruct (Z.ltb_spec cap (Z.of_nat (length emitted))); try reflexivity; try lia.
Qed.

Lemma handle_event_inv mo me st tr ev :
  0 < mo -> 0 < me ->
  loop_inv mo me st tr ->
  loop_inv mo me (handle_event mo me st ev) (tr ++ [ERead (fst ev) (snd ev)]).
Proof.
  intros Hmo Hme [Hout Herr]. destruct ev as [ch r]. unfold handle_event, loop_inv.
  cbn [fst snd]. rewrite !reads_app. cbn [reads].
  destruct (chunk_of r) as [|b chunk] eqn:Hchunk.
  - rewrite !app_nil_r. destruct ch; cbn; rewrite ?app_nil_r; by split.
  - destruct ch; cbn [channel_eqb stdout_buf stderr_buf stdout_truncated stderr_truncated];
      rewrite !app_nil_r; split; try assumption; by apply capture_step.
Qed.

Lemma fold_handle_event_inv mo me events :
  0 < mo -> 0 < me ->
  forall st tr,
    loop_inv mo me st tr ->
    loop_inv mo me (fold_left (handle_event mo me) events st)
      (tr ++ List.map (fun ev => ERead (fst ev) (snd ev)) events).
Proof.
  intros Hmo Hme. induction events as [|ev events IH]; intros st tr Hinv; simpl.
  - by rewrite app_nil_r.
  - replace (tr ++ ERead (fst ev) (snd ev) :: List.map (fun ev => ERead (fst ev) (snd ev)) events)
      with ((tr ++ [ERead (fst ev) (snd ev)]) ++ List.map (fun ev => ERead (fst ev) (snd ev)) events)
      by (by rewrite <- app_assoc).
    apply IH. by apply handle_event_inv.
Qed.

Lemma select_blocked st r : 0 <= snd (select st r) <= poll_us.
Proof.
  unfold select, poll_us. cbn [snd].
  destruct (List.filter _ _); lia.
Qed.

Lemma wait_loop_sound c start timeout_us mo me rounds :
  0 < mo -> 0 < me ->
  forall st w tr e st' w',
    loop_inv mo me st tr ->
    wait_loop c start timeout_us mo me rounds st w = (e, st', w') ->
    exists tr', loop_run mo me st w tr st' w' tr'.
Proof.
  intros Hmo Hme. induction rounds as [|r rounds IH]; intros st w tr e st' w' Hinv Hrun.
  - exists []. simpl in Hrun.
    destruct (negb _); [|destruct (_ <=? _)]; injection Hrun as <- <- <-;
      (split; [by rewrite app_nil_r|constructor|by rewrite app_nil_r|done..|lia]).
  - cbn [wait_loop] in Hrun.
    destruct (negb _).
    { exists []. injection Hrun as <- <- <-.
      split; [by rewrite app_nil_r|constructor|by rewrite app_nil_r|done..|lia]. }
    destruct (_ <=? _).
    { exists []. injection Hrun as <- <- <-.
      split; [by rewrite app_nil_r|constructor|by rewrite app_nil_r|done..|lia]. }
    pose proof (select_blocked st r) as Hb.
    destruct (select st r) as [events blocked]. cbn [snd] in Hb.
    destruct (match events with [] => _ | _ :: _ => false end) eqn:Hbreak.
    { exists [ESelect blocked]. injection Hrun as <- <- <-.
      split; cbn; try done.
      - constructor; [exact Hb|constructor].
      - destruct Hinv as [Ho He]. unfold loop_inv. rewrite !reads_app. cbn.
        by rewrite !app_nil_r.
      - lia. }
    eapply IH in Hrun as [tr' Hr].
    2:{ apply (fold_handle_event_inv mo me events Hmo Hme st (tr ++ [ESelect blocked])).
        destruct Hinv as [Ho He]. unfold loop_inv. rewrite !reads_app. cbn.
        by rewrite !app_nil_r. }
    destruct Hr as [Ht Hf Hi Hs Hd Htm Hc]. cbn in *.
    exists (ESelect blocked :: List.map (fun ev => ERead (fst ev) (snd ev)) events ++ tr').
    split; cbn; try done.
    + rewrite Ht. by rewrite <- !app_assoc.
    + constructor; [exact Hb|]. apply Forall_app. split; [|exact Hf].
      apply List.Forall_map. apply List.Forall_forall. by intros.
    + revert Hi. rewrite <- !app_assoc. cbn. done.
    + lia.
Qed.

Lemma loop_init_inv mo me : 0 < mo -> 0 < me -> loop_inv mo me loop_init [].
Proof.
  intros Hmo Hme. unfold loop_inv, captured, take. cbn.
  rewrite !firstn_nil. change (Z.of_nat 0) with 0.
  destruct (Z.ltb_spec mo 0); destruct (Z.ltb_spec me 0); try lia. done.
Qed.






Section Capture.
Context {lib : PyLib}.






End Capture.


(** ** The timeout *)

Lemma handle_event_registered mo me ch st ev :
  stays_open ch ev -> registered st ch = true ->
  registered (handle_event mo me st ev) ch = true.
Proof.
  unfold stays_open, handle_event. intros Hopen Hreg. destruct ev as [ch' r]. cbn [fst snd] in *.
  destruct (chunk_of r) as [|b chunk].
  - destruct ch', ch; cbn; try assumption; exfalso; by apply Hopen.
  - destruct ch', ch; cbn; assumption.
Qed.

Lemma fold_handle_event_registered mo me ch events :
  Forall (stays_open ch) events ->
  forall st, registered st ch = true ->
             registered (fold_left (handle_event mo me) events st) ch = true.
Proof.
  induction 1 as [|ev events Hev _ IH]; intros st Hreg; simpl; [exact Hreg|].
  apply IH. by apply handle_event_registered.
Qed.

Lemma registered_some st ch :
  registered st ch = true -> negb (stdout_registered st || stderr_registered st) = false.
Proof. destruct ch; cbn; intros ->; by rewrite ?orb_true_r. Qed.

Lemma wait_loop_times_out c start timeout_us mo me ch rounds :
  alive_until c (timeout_us + poll_us) ->
  keeps_open ch rounds ->
  forall tail st w,
    registered st ch = true ->
    timeout_us <= w_clock w - start + script_time rounds ->
    exists st' w',
      wait_loop c start timeout_us mo me (rounds ++ tail) st w = (TimedOut, st', w')
      /\ timeout_us <= w_clock w' - start.
Proof.
  intros Halive. induction 1 as [|r rounds Hr _ IH]; intros tail st w Hreg Htime.
  - cbn [app script_time fold_right] in *.
    destruct tail as [|r tail]; cbn [wait_loop]; rewrite (registered_some st ch Hreg);
      destruct (Z.leb_spec timeout_us (w_clock w - start)); try lia; by eexists _, _.
  - cbn [app wait_loop]. rewrite (registered_some st ch Hreg).
    destruct (Z.leb_spec timeout_us (w_clock w - start)); [by eexists _, _|].
    pose proof (select_blocked st r) as Hb.
    assert (round_time r <= snd (select st r)) as Hlow.
    { unfold select, round_time, poll_us. cbn [snd].
      destruct (r_events r) as [|ev evs]; [cbn; lia|].
      destruct (List.filter _ (ev :: evs)); lia. }
    assert (Forall (stays_open ch) (fst (select st r))) as Hopen.
    { unfold select. cbn [fst]. apply List.Forall_forall. intros ev Hev.
      apply List.filter_In in Hev as [Hev _].
      eapply List.Forall_forall in Hr; eassumption. }
    destruct (select st r) as [events blocked]. cbn [fst snd] in *.
    assert (match events with
            | [] => exited c start (w_clock (log (ESelect blocked) (set_clock (w_clock w + blocked) w)))
            | _ :: _ => false
            end = false) as ->.
    { destruct events; [|done]. unfold exited, alive_until in *. cbn.
      destruct (c_exit_at c); [|done]. apply Z.leb_gt. lia. }
    apply IH.
    + by apply fold_handle_event_registered.
    + cbn. cbn [script_time fold_right] in Htime. fold (script_time rounds) in Htime. lia.
Qed.

Lemma terminate_trace c start w :
  (gone_in_time c start (w_clock w) = true
   /\ exists d, 0 <= d <= grace_us
                /\ w_trace (terminate c start w)
                   = w_trace w ++ [ETerminate; EWaitFor grace_us d])
  \/ (gone_in_time c start (w_clock w) = false
      /\ w_trace (terminate c start w)
         = w_trace w ++ [ETerminate; EWaitFor grace_us grace_us; EKill]).
Proof.
  unfold terminate, gone_in_time. destruct (gone_at c start (w_clock w)) as [t|].
  - destruct (Z.leb_spec t (w_clock w + grace_us)).
    + left. split; [done|]. exists (Z.max 0 (t - w_clock w)).
      split; [unfold grace_us in *; lia|].
      cbn. by rewrite <- app_assoc.
    + right. split; [done|]. cbn. by rewrite <- !app_assoc.
  - right. split; [done|]. cbn. by rewrite <- !app_assoc.
Qed.

Lemma terminate_outcome c start w :
  alive_until c (w_clock w - start) ->
  (gone_in_time c start (w_clock w) = true
   /\ exists d, 0 <= d <= grace_us
                /\ gone_at c start (w_clock w) = Some (w_clock w + d)
                /\ w_trace (terminate c start w)
                   = w_trace w ++ [ETerminate; EWaitFor grace_us d]
                /\ w_clock (terminate c start w) = w_clock w + d)
  \/ (gone_in_time c start (w_clock w) = false
      /\ w_trace (terminate c start w)
         = w_trace w ++ [ETerminate; EWaitFor grace_us grace_us; EKill]
      /\ w_clock (terminate c start w) = w_clock w + grace_us).
Proof.
  intros Halive.
  assert (forall t, gone_at c start (w_clock w) = Some t -> w_clock w <= t) as Hlate.
  { unfold gone_at, alive_until in *.
    destruct (c_exit_at c) as [x|]; destruct (c_term_delay c) as [d|];
      intros t [= <-]; lia. }
  unfold terminate, gone_in_time. destruct (gone_at c start (w_clock w)) as [t|].
  - specialize (Hlate t eq_refl).
    destruct (Z.leb_spec t (w_clock w + grace_us)).
    + left. split; [done|]. exists (t - w_clock w).
      split; [lia|]. split; [f_equal; lia|].
      replace (Z.max 0 (t - w_clock w)) with (t - w_clock w) by lia.
      split; [cbn; by rewrite <- app_assoc|cbn; lia].
    + right. split; [done|]. split; [cbn; by rewrite <- !app_assoc|done].
  - right. split; [done|]. split; [cbn; by rewrite <- !app_assoc|done].
Qed.

Lemma wait_loop_waited c start timeout_us mo me rounds :
  forall st w e st' w',
    wait_loop c start timeout_us mo me rounds st w = (e, st', w') ->
    exists tr, w_trace w' = w_trace w ++ tr /\ w_clock w' = w_clock w + waited tr.
Proof.
  induction rounds as [|r rounds IH]; intros st w e st' w'; cbn [wait_loop].
  - destruct (negb _); [|destruct (_ <=? _)]; intros [= _ _ <-]; exists [];
      (split; [by rewrite app_nil_r|cbn; lia]).
  - destruct (negb _).
    { intros [= _ _ <-]. exists []. split; [by rewrite app_nil_r|cbn; lia]. }
    destruct (_ <=? _).
    { intros [= _ _ <-]. exists []. split; [by rewrite app_nil_r|cbn; lia]. }
    destruct (select st r) as [events blocked].
    destruct (match events with [] => _ | _ :: _ => false end).
    { intros [= _ _ <-]. exists [ESelect blocked]. split; [done|cbn; lia]. }
    intros Hloop. apply IH in Hloop as (tr & -> & ->). cbn.
    exists (ESelect blocked :: List.map (fun ev => ERead (fst ev) (snd ev)) events ++ tr).
    split; [by rewrite <- !app_assoc|]. cbn.
    assert (forall evs, waited (List.map (fun ev => ERead (fst ev) (snd ev)) evs ++ tr)
                        = waited tr) as ->; [|lia].
    induction evs as [|ev evs IHe]; [done|exact IHe].
Qed.

Lemma wait_loop_timed_out_bounds c start timeout_us mo me rounds :
  forall st w st' w',
    w_clock w - start < timeout_us + poll_us ->
    wait_loop c start timeout_us mo me rounds st w = (TimedOut, st', w') ->
    timeout_us <= w_clock w' - start < timeout_us + poll_us.
Proof.
  induction rounds as [|r rounds IH]; intros st w st' w' Hinv; cbn [wait_loop].
  - destruct (negb _); [discriminate|].
    destruct (Z.leb_spec timeout_us (w_clock w - start)); [|discriminate].
    intros Hr. injection Hr as <- <-. lia.
  - destruct (negb _); [discriminate|].
    destruct (Z.leb_spec timeout_us (w_clock w - start)).
    { intros Hr. injection Hr as <- <-. lia. }
    pose proof (select_blocked st r) as Hb.
    destruct (select st r) as [events blocked]. cbn [snd] in Hb.
    destruct (match events with [] => _ | _ :: _ => false end); [discriminate|].
    apply IH. cbn. lia.
Qed.

Section Timeout.
Context {lib : PyLib}.

(** C1, as amended: for valid arguments, a [timeout_ms] that a float can
    hold and a process that starts, when the child keeps one of its output
    streams open for as long as the timeout lasts and does not exit on its
    own before [timeout_ms] plus one poll interval (50 ms), the loop finds
    the elapsed time at or beyond [timeout_ms], and less than one poll
    interval beyond it, the elapsed time being the time spent in the
    readiness waits; the process is then asked to terminate and waited for
    until it is gone, at most 0.5 s, and killed exactly when it is not gone
    0.5 s after the request; the call raises a [RunnerError] of type
    [timeout] whose details are [{timeout_ms}], so the caller gets the error
    and no output; before that the call only waited for readiness, at most
    50 ms each time, and read. *)
Theorem run_process_times_out argv cwd t mo me w c rest ch :
  argv <> [] ->
  0 < int_value t -> 0 < int_value mo -> 0 < int_value me ->
  int_value t < FLOAT_INT_LIMIT ->
  existsb has_nul (cwd :: argv) = false ->
  w_spawns w = Spawned c :: rest ->
  keeps_open ch (c_rounds c) ->
  int_value t * 1000 <= script_time (c_rounds c) ->
  alive_until c (int_value t * 1000 + poll_us) ->
  exists w' tr,
    run_process argv cwd t mo me w
    = Raise (ERunner {| error_type := "timeout";
                        message := "Process exceeded timeout of "
                                     +:+ str_of_int t +:+ " ms.";
                        details := {[ "timeout_ms" := VInt t ]} |}) w'
    /\ Forall loop_effect tr
    /\ int_value t * 1000 <= waited tr < int_value t * 1000 + poll_us
    /\ ((gone_in_time c (w_clock w) (w_clock w + waited tr) = true
         /\ exists d, 0 <= d <= grace_us
                      /\ gone_at c (w_clock w) (w_clock w + waited tr)
                         = Some (w_clock w + waited tr + d)
                      /\ w_trace w' = w_trace w ++ [EPopen argv cwd] ++ tr
                                        ++ [ETerminate; EWaitFor grace_us d]
                      /\ w_clock w' = w_clock w + waited tr + d)
        \/ (gone_in_time c (w_clock w) (w_clock w + waited tr) = false
            /\ w_trace w' = w_trace w ++ [EPopen argv cwd] ++ tr
                              ++ [ETerminate; EWaitFor grace_us grace_us; EKill]
            /\ w_clock w' = w_clock w + waited tr + grace_us)).
Proof.
  intros Hargv Ht Hmo Hme Hfloat Hnul Hspawn Hopen Htime Halive.
  unfold run_process. destruct argv as [|argv0 argv]; [done|].
  destruct (Z.leb_spec (int_value t) 0); [lia|].
  destruct (Z.leb_spec (int_value mo) 0); [lia|].
  destruct (Z.leb_spec (int_value me) 0); [lia|]. cbn [orb].
  unfold popen. rewrite Hnul, Hspawn.
  destruct (Z.leb_spec FLOAT_INT_LIMIT (int_value t)); [lia|].
  set (w1 := {| w_clock := _ |}).
  destruct (wait_loop_times_out c (w_clock w) (int_value t * 1000)
              (int_value mo) (int_value me) ch (c_rounds c) Halive Hopen
              [eof_round] loop_init w1) as (st' & w2 & Hloop & Hnow).
  { by destruct ch. }
  { subst w1. cbn. lia. }
  rewrite Hloop.
  pose proof Hloop as Hbound. apply wait_loop_timed_out_bounds in Hbound;
    [|subst w1; cbn; unfold poll_us; lia].
  pose proof Hloop as Hclock. apply wait_loop_waited in Hclock as (tr' & Htr' & Hclock).
  eapply wait_loop_sound in Hloop as [tr [Htr Hf _ _ _ _ _]];
    [|lia|lia|by apply loop_init_inv].
  assert (tr' = tr) as -> by (rewrite Htr in Htr'; by apply app_inv_head in Htr').
  assert (w_clock w2 = w_clock w + waited tr) as Hw2 by (subst w1; exact Hclock).
  exists (terminate c (w_clock w) w2), tr.
  split; [reflexivity|]. split; [exact Hf|]. split; [lia|].
  rewrite <- Hw2.
  destruct (terminate_outcome c (w_clock w) w2) as [[Hg (d & Hd & Hat & Hz & Hc)]|[Hg [Hz Hc]]].
  { unfold alive_until in *. destruct (c_exit_at c); [lia|done]. }
  - left. split; [exact Hg|]. exists d. split; [exact Hd|]. split; [exact Hat|].
    split; [|exact Hc]. rewrite Hz, Htr. subst w1. cbn. by rewrite <- !app_assoc.
  - right. split; [exact Hg|]. split; [|exact Hc].
    rewrite Hz, Htr. subst w1. cbn. by rewrite <- !app_assoc.
Qed.

End Timeout.

Lemma run_process_times_out_witness :
  exists w' tr,
    run_process (lib := ascii_lib) ["python"; "-c"; "import time; time.sleep(60)"] "/tmp"
      (PInt 100) (PInt 1000) (PInt 1000) (world0 [Spawned sleeper])
    = Raise (ERunner {| error_type := "timeout";
                        message := "Process exceeded timeout of "
                                     +:+ str_of_int (PInt 100) +:+ " ms.";
                        details := {[ "timeout_ms" := VInt (PInt 100) ]} |}) w'
    /\ Forall loop_effect tr
    /\ int_value (PInt 100) * 1000 <= waited tr < int_value (PInt 100) * 1000 + poll_us
    /\ ((gone_in_time sleeper (w_clock (world0 [Spawned sleeper]))
           (w_clock (world0 [Spawned sleeper]) + waited tr) = true
         /\ exists d, 0 <= d <= grace_us
                      /\ gone_at sleeper (w_clock (world0 [Spawned sleeper]))
                           (w_clock (world0 [Spawned sleeper]) + waited tr)
                         = Some (w_clock (world0 [Spawned sleeper]) + waited tr + d)
                      /\ w_trace w' = w_trace (world0 [Spawned sleeper])
                                        ++ [EPopen ["python"; "-c"; "import time; time.sleep(60)"] "/tmp"] ++ tr
                                        ++ [ETerminate; EWaitFor grace_us d]
                      /\ w_clock w' = w_clock (world0 [Spawned sleeper]) + waited tr + d)
        \/ (gone_in_time sleeper (w_clock (world0 [Spawned sleeper]))
              (w_clock (world0 [Spawned sleeper]) + waited tr) = false
            /\ w_trace w' = w_trace (world0 [Spawned sleeper])
                              ++ [EPopen ["python"; "-c"; "import time; time.sleep(60)"] "/tmp"] ++ tr
                              ++ [ETerminate; EWaitFor grace_us grace_us; EKill]
            /\ w_clock w' = w_clock (world0 [Spawned sleeper]) + waited tr + grace_us)).
Proof.
  apply (run_process_times_out (lib := ascii_lib) _ _ _ _ _ _ sleeper [] Stdout).
  - discriminate.
  - simpl. lia.
  - simpl. lia.
  - simpl. lia.
  - vm_compute. reflexivity.
  - reflexivity.
  - reflexivity.
  - repeat constructor.
  - vm_compute. intros H. discriminate H.
  - vm_compute. intros H. discriminate H.
Defined.

(** C1, counterexample: a child that closes both pipes at once and exits
    after a minute makes a call with a 100 ms timeout return normally after
    60000 ms, the final [process.wait()] having blocked for the whole minute
    without any terminate; and with a 10 ms timeout the first readiness wait
    of a silent child blocks for the 50 ms poll interval. *)
Lemma run_process_timeout_counterexample :
  (exists w',
      run_process (lib := ascii_lib) ["detached"] "/tmp" (PInt 100) (PInt 1000) (PInt 1000)
        (world0 [Spawned detached]) = Ret ("", "", 0, 60000) w'
      /\ In (EWait 60000000) (w_trace w')
      /\ ~ In ETerminate (w_trace w'))
  /\ (exists e w',
      run_process (lib := ascii_lib) ["sleeper"] "/tmp" (PInt 10) (PInt 1000) (PInt 1000)
        (world0 [Spawned sleeper]) = Raise e w'
      /\ In (ESelect 50000) (w_trace w')
      /\ 10 * 1000 < 50000).
Proof.
  split.
  - eexists. split; [vm_compute; reflexivity|]. split.
    + cbn. tauto.
    + cbn. intros H. repeat destruct H as [H|H]; try discriminate H. exact H.
  - eexists _, _. split; [vm_compute; reflexivity|]. split; [cbn; tauto|lia].
Qed.


(** The final [process.wait()] has no bound at all: a child that closes
    both pipes and never exits blocks the call for ever. *)
Example run_process_blocks_for_ever :
  exists w',
    run_process (lib := ascii_lib) ["immortal"] "/tmp" (PInt 100) (PInt 1000) (PInt 1000)
      (world0 [Spawned immortal]) = Hang w'.
Proof. eexists. vm_compute. reflexivity. Qed.

(** ** The version operation *)

Lemma popens_loop_effects tr : Forall loop_effect tr -> popens tr = [].
Proof.
  induction 1 as [|e tr He _ IH]; [done|]. unfold popens in *. cbn.
  destruct e; cbn in *; try done.
Qed.

Section Version.
Context {lib : PyLib}.

Lemma run_with_eq cfg argv cwd t mo me w :
  cfg !! "timeout_ms" = Some (VInt t) ->
  cfg !! "max_stdout_bytes" = Some (VInt mo) ->
  cfg !! "max_stderr_bytes" = Some (VInt me) ->
  run_with cfg argv cwd w = run_process argv cwd t mo me w.
Proof.
  intros Ht Hmo Hme. unfold run_with, bind, cfg_int. by rewrite Ht, Hmo, Hme.
Qed.

Lemma run_process_popens argv cwd t mo me w :
  argv <> [] -> 0 < int_value t -> 0 < int_value mo -> 0 < int_value me ->
  popens (w_trace (world_of (run_process argv cwd t mo me w)))
  = popens (w_trace w) ++ [EPopen argv cwd].
Proof.
  intros Hargv Ht Hmo Hme. unfold run_process.
  destruct argv as [|argv0 argv]; [done|].
  destruct (Z.leb_spec (int_value t) 0); [lia|].
  destruct (Z.leb_spec (int_value mo) 0); [lia|].
  destruct (Z.leb_spec (int_value me) 0); [lia|]. cbn [orb].
  assert (w_trace (snd (popen (argv0 :: argv) cwd w))
          = w_trace w ++ [EPopen (argv0 :: argv) cwd]) as Hw1.
  { unfold popen. destruct (existsb has_nul _); [done|]. by destruct (w_spawns w). }
  destruct (popen _ _ w) as [[c| |msg|cls] w1]; cbn [snd] in Hw1; cbn [world_of].
  - destruct (FLOAT_INT_LIMIT <=? int_value t);
      [cbn [world_of]; by rewrite Hw1, popens_app|].
    destruct (wait_loop _ _ _ _ _ _ _ _) as [[e st] w2] eqn:Hloop.
    eapply wait_loop_sound in Hloop as [tr [Htr Hf _ _ _ _ _]];
      [|lia|lia|by apply loop_init_inv].
    apply popens_loop_effects in Hf.
    destruct e.
    + unfold wait. destruct (c_exit_at c); cbn [world_of].
      * cbn. rewrite Htr, Hw1, !popens_app, Hf. cbn. by rewrite !app_nil_r.
      * rewrite Htr, Hw1, !popens_app, Hf. cbn. by rewrite !app_nil_r.
    + cbn [world_of].
      destruct (terminate_trace c (w_clock w) w2) as [[_ (d & _ & ->)]|[_ ->]];
        rewrite Htr, Hw1, !popens_app, Hf; cbn; by rewrite !app_nil_r.
  - by rewrite Hw1, popens_app.
  - by rewrite Hw1, popens_app.
  - by rewrite Hw1, popens_app.
Qed.


(** C7: [version] first runs [ngspice -v]; it runs [ngspice -V], in the
    same directory and with the same limits, exactly when the first run
    returned a non-zero exit code, as the processes started show; the
    envelope has [ok] true exactly when its exit code is 0 and never has
    files; a failed last run without [RunnerError] gives the error
    [process_failed] with the message "ngspice version command failed."; a
    [RunnerError] from either run gives the envelope with its type, message
    and details, [elapsed_ms] 0 and [exit_code] -1. *)
Theorem version_runs_v_then_V (limits : option (gmap string PyVal)) (w : World) :
  exists t mo me,
    _build_limits limits !! "timeout_ms" = Some (VInt t)
    /\ _build_limits limits !! "max_stdout_bytes" = Some (VInt mo)
    /\ _build_limits limits !! "max_stderr_bytes" = Some (VInt me)
    /\ let tmp := fst (mkdtemp w) in
       let w0 := snd (mkdtemp w) in
       let run flag := run_process ["ngspice"; flag] tmp t mo me in
       (* the processes started, in order *)
       (0 < int_value t -> 0 < int_value mo -> 0 < int_value me ->
        popens (w_trace (world_of (version limits w)))
        = popens (w_trace w)
            ++ EPopen ["ngspice"; "-v"] tmp
               :: match run "-v" w0 with
                  | Ret (_, _, code, _) _ =>
                      if code =? 0 then [] else [EPopen ["ngspice"; "-V"] tmp]
                  | _ => []
                  end)
       (* [-v] exits with 0 *)
       /\ (forall out err ms w1,
              run "-v" w0 = Ret (out, err, 0, ms) w1 ->
              version limits w
              = Ret {| ok := true; stdout := out; stderr := err; files := [];
                       metrics := {| elapsed_ms := ms; exit_code := 0 |};
                       error := None |} (rmtree tmp w1))
       (* [-v] exits with another code: [-V] decides *)
       /\ (forall out err code ms w1 out' err' code' ms' w2,
              run "-v" w0 = Ret (out, err, code, ms) w1 -> code <> 0 ->
              run "-V" w1 = Ret (out', err', code', ms') w2 ->
              version limits w
              = Ret {| ok := code' =? 0; stdout := out'; stderr := err'; files := [];
                       metrics := {| elapsed_ms := ms'; exit_code := code' |};
                       error := if code' =? 0 then None else Some version_failed |}
                    (rmtree tmp w2))
       (* a [RunnerError] from either run *)
       /\ (forall e w1,
              run "-v" w0 = Raise (ERunner e) w1 ->
              version limits w = Ret (runner_envelope e) (rmtree tmp w1))
       /\ (forall out err code ms w1 e w2,
              run "-v" w0 = Ret (out, err, code, ms) w1 -> code <> 0 ->
              run "-V" w1 = Raise (ERunner e) w2 ->
              version limits w = Ret (runner_envelope e) (rmtree tmp w2))
       (* every envelope *)
       /\ (forall env w',
              version limits w = Ret env w' ->
              files env = [] /\ (ok env = true <-> exit_code (metrics env) = 0)).
Proof.
  destruct (build_limits_int limits "timeout_ms") as [t Ht]; [set_solver|].
  destruct (build_limits_int limits "max_stdout_bytes") as [mo Hmo]; [set_solver|].
  destruct (build_limits_int limits "max_stderr_bytes") as [me Hme]; [set_solver|].
  exists t, mo, me. repeat (split; [assumption|]).
  intros tmp w0 run.
  assert (forall flag w1, run_with (_build_limits limits) ["ngspice"; flag] tmp w1
                          = run flag w1) as Hrun.
  { intros. by apply run_with_eq. }
  assert (version limits w
          = match run "-v" w0 with
            | Ret (out, err, code, ms) w1 =>
                if code =? 0
                then Ret (_response true out err [] ms code None) (rmtree tmp w1)
                else match run "-V" w1 with
                     | Ret (out', err', code', ms') w2 =>
                         Ret (_response (code' =? 0) out' err' [] ms' code'
                                (if code' =? 0 then None else Some version_failed))
                             (rmtree tmp w2)
                     | Raise (ERunner e) w2 => Ret (runner_envelope e) (rmtree tmp w2)
                     | Raise e w2 => Raise e (rmtree tmp w2)
                     | Hang w2 => Hang w2
                     end
            | Raise (ERunner e) w1 => Ret (runner_envelope e) (rmtree tmp w1)
            | Raise e w1 => Raise e (rmtree tmp w1)
            | Hang w1 => Hang w1
            end) as Hv.
  { unfold version, TemporaryDirectory, try_runner, bind, runner_failed, ret.
    subst tmp w0. destruct (mkdtemp w) as [tmp w0]. cbn [fst snd] in *.
    rewrite Hrun. destruct (run "-v" w0) as [[[[out err] code] ms] w1|[e|cls] w1|w1];
      try reflexivity.
    cbn [fst snd]. destruct (Z.eqb_spec code 0) as [->|Hne]; cbn [negb].
    - reflexivity.
    - rewrite Hrun.
      destruct (run "-V" w1) as [[[[out' err'] code'] ms'] w2|[e|cls] w2|w2];
        reflexivity. }
  split; [|split; [|split; [|split; [|split]]]].
  - intros Hpt Hpmo Hpme.
    pose proof (run_process_popens ["ngspice"; "-v"] tmp t mo me w0) as Hp1.
    assert (popens (w_trace w0) = popens (w_trace w)) as Hw0.
    { subst w0. cbn. rewrite popens_app. cbn. by rewrite app_nil_r. }
    assert (forall x, popens (w_trace (rmtree tmp x)) = popens (w_trace x)) as Hrm.
    { intros. cbn. rewrite popens_app. cbn. by rewrite app_nil_r. }
    rewrite Hv. fold (run "-v" w0) in Hp1.
    destruct (run "-v" w0) as [[[[out err] code] ms] w1|[e|cls] w1|w1];
      cbn [world_of] in *; rewrite ?Hrm, ?Hp1, ?Hw0; try (by (done || lia)).
    destruct (Z.eqb_spec code 0) as [->|Hne]; cbn [world_of]; rewrite ?Hrm, ?Hp1, ?Hw0;
      try (by (done || lia)).
    pose proof (run_process_popens ["ngspice"; "-V"] tmp t mo me w1) as Hp2.
    fold (run "-V" w1) in Hp2.
    destruct (run "-V" w1) as [[[[out' err'] code'] ms'] w2|[e|cls] w2|w2];
      cbn [world_of] in *; rewrite ?Hrm, ?Hp2, ?Hp1, ?Hw0, <- ?app_assoc; try (by (done || lia)).
  - intros out err ms w1 H1. by rewrite Hv, H1.
  - intros out err code ms w1 out' err' code' ms' w2 H1 Hne H2. rewrite Hv, H1.
    destruct (Z.eqb_spec code 0); [done|]. by rewrite H2.
  - intros e w1 H1. by rewrite Hv, H1.
  - intros out err code ms w1 e w2 H1 Hne H2. rewrite Hv, H1.
    destruct (Z.eqb_spec code 0); [done|]. by rewrite H2.
  - intros env w'. rewrite Hv.
    destruct (run "-v" w0) as [[[[out err] code] ms] w1|[e|cls] w1|w1]; try discriminate.
    + destruct (Z.eqb_spec code 0) as [->|Hne].
      * intros H. injection H as <- <-. cbn. done.
      * destruct (run "-V" w1) as [[[[out' err'] code'] ms'] w2|[e|cls] w2|w2];
          try discriminate; intros H; injection H as <- <-; cbn.
        -- split; [done|]. apply Z.eqb_eq.
        -- split; [done|]. split; [discriminate|lia].
    + intros H. injection H as <- <-. cbn. split; [done|]. split; [discriminate|lia].
Qed.

End Version.

Lemma version_runs_v_then_V_witness :
  exists env w',
    version (lib := ascii_lib) None (world0 [Spawned failing; Spawned quick]) = Ret env w'
    /\ ok env = true
    /\ popens (w_trace w')
       = [ EPopen ["ngspice"; "-v"] "/tmp/autosage_ngspice_0";
           EPopen ["ngspice"; "-V"] "/tmp/autosage_ngspice_0" ].
Proof.
  destruct (version_runs_v_then_V (lib := ascii_lib) None
              (world0 [Spawned failing; Spawned quick]))
    as (t & mo & me & Ht & Hmo & Hme & Hp & _ & H & _).
  vm_compute in Ht, Hmo, Hme.
  injection Ht as <-. injection Hmo as <-. injection Hme as <-.
  eexists _, _. split; [|split].
  - eapply H.
    + vm_compute. reflexivity.
    + discriminate.
    + vm_compute. reflexivity.
  - reflexivity.
  - vm_compute. reflexivity.
Defined.

(** ** Netlist validation *)

Section Validate.
Context {lib : PyLib}.

Lemma log_has_errors_iff (log_text : string) :
  _log_has_errors log_text = true <->
  exists line, In line (splitlines log_text)
               /\ (contains "error:" (lower line) = true
                   \/ contains "fatal" (lower line) = true).
Proof.
  unfold _log_has_errors, has_marker. rewrite existsb_exists. split.
  - intros (l & Hin & Hm). apply in_map_iff in Hin as (line & <- & Hin).
    exists line. split; [exact Hin|]. by apply orb_true_iff.
  - intros (line & Hin & Hm). exists (lower line). split.
    + apply in_map_iff. by exists line.
    + by apply orb_true_iff.
Qed.

(** C3: for a netlist that is not blank and a run of
    [ngspice -b -o validate.log input.cir] that returns, [validate_netlist]
    returns the envelope of that run in which [ok] holds exactly when the
    exit code is 0 and no line of [validate.log] contains, once lower-cased,
    [error:] or [fatal]; when [ok] is false the error is [validation_failed]
    with the message "ngspice reported validation errors." and details made
    of [exit_code] and, exactly when the log is not empty, [log_excerpt]: the
    first 50 matching lines, or the first 50 lines when none matches; the
    files are collected from the directory either way. *)
Theorem validate_netlist_spec (text : string) (limits : option (gmap string PyVal))
    (w : World) :
  strip text <> "" ->
  exists t mo me mf,
    _build_limits limits !! "timeout_ms" = Some (VInt t)
    /\ _build_limits limits !! "max_stdout_bytes" = Some (VInt mo)
    /\ _build_limits limits !! "max_stderr_bytes" = Some (VInt me)
    /\ _build_limits limits !! "max_file_bytes" = Some (VInt mf)
    /\ let tmp := fst (mkdtemp w) in
       let w0 := world_of (write_text "input.cir" text (snd (mkdtemp w))) in
       forall out err code ms w1,
         run_process ["ngspice"; "-b"; "-o"; "validate.log"; "input.cir"] tmp t mo me w0
         = Ret (out, err, code, ms) w1 ->
         let log_text :=
           match List.find (fun e => String.eqb (e_name e) "validate.log") (w_dir w1) with
           | Some e => decode_utf8 (e_data e)
           | None => ""
           end in
         let lines := splitlines log_text in
         let matching :=
           List.filter (fun line => contains "error:" (lower line)
                                    || contains "fatal" (lower line)) lines in
         exists env,
           validate_netlist (VStr text) limits w = Ret env (rmtree tmp w1)
           /\ (ok env = true <->
               code = 0
               /\ ~ exists line, In line lines
                                 /\ (contains "error:" (lower line) = true
                                     \/ contains "fatal" (lower line) = true))
           /\ stdout env = out /\ stderr env = err
           /\ metrics env = {| elapsed_ms := ms; exit_code := code |}
           /\ files env = _collect_files (w_dir w1) mf
           /\ (ok env = true -> error env = None)
           /\ (ok env = false ->
               exists details,
                 error env = Some {| err_type := "validation_failed";
                                     err_message := "ngspice reported validation errors.";
                                     err_details := details |}
                 /\ details !! "exit_code" = Some (VInt (PInt code))
                 /\ (log_text <> "" ->
                     details !! "log_excerpt"
                     = Some (VStr (join nl (take 50 match matching with
                                                    | [] => lines
                                                    | _ :: _ => matching
                                                    end))))
                 /\ (log_text = "" -> details !! "log_excerpt" = None)
                 /\ (forall key, key <> "exit_code" -> key <> "log_excerpt" ->
                                 details !! key = None)).
Proof.
  intros Htext.
  destruct (build_limits_int limits "timeout_ms") as [t Ht]; [set_solver|].
  destruct (build_limits_int limits "max_stdout_bytes") as [mo Hmo]; [set_solver|].
  destruct (build_limits_int limits "max_stderr_bytes") as [me Hme]; [set_solver|].
  destruct (build_limits_int limits "max_file_bytes") as [mf Hmf]; [set_solver|].
  exists t, mo, me, mf. repeat (split; [assumption|]).
  intros tmp w0 out err code ms w1 Hrun log_text lines matching.
  unfold validate_netlist.
  destruct (String.eqb_spec (strip text) "") as [|_]; [done|].
  unfold TemporaryDirectory, try_runner, bind, write_text, read_log, collect, cfg_int, ret.
  subst tmp w0. destruct (mkdtemp w) as [tmp w0]. cbn [fst snd world_of write_text] in *.
  rewrite (run_with_eq _ _ _ t mo me) by assumption.
  unfold write_text in Hrun. cbn [world_of] in Hrun. rewrite Hrun. rewrite Hmf.
  fold log_text.
  replace (match List.find (fun e => String.eqb (e_name e) "validate.log") (w_dir w1) with
           | Some e => Ret (decode_utf8 (e_data e)) w1
           | None => Ret "" w1
           end) with (Ret log_text w1)
    by (subst log_text; by destruct (List.find _ _)).
  eexists. split; [reflexivity|]. cbn [ok stdout stderr metrics files error _response].
  assert (_log_has_errors log_text = false <->
          ~ exists line, In line lines
                         /\ (contains "error:" (lower line) = true
                             \/ contains "fatal" (lower line) = true)) as Hlog.
  { unfold lines. rewrite <- log_has_errors_iff.
    by destruct (_log_has_errors log_text). }
  split.
  { rewrite andb_true_iff, negb_true_iff, Z.eqb_eq, Hlog. done. }
  repeat (split; [reflexivity|]).
  destruct ((code =? 0) && negb (_log_has_errors log_text)); cbn [negb].
  - split; [done|discriminate].
  - split; [discriminate|]. intros _. eexists. split; [reflexivity|].
    unfold _log_relevant_excerpt. fold lines.
    destruct (String.eqb_spec log_text "") as [Hl|Hl]; cbn [negb].
    + split; [by rewrite lookup_singleton_eq|]. split; [done|]. split.
      * intros _. by rewrite lookup_singleton_ne.
      * intros key Hk _. by rewrite lookup_singleton_ne.
    + split; [by rewrite lookup_insert_ne, lookup_singleton_eq|]. split.
      * intros _. rewrite lookup_insert_eq. do 2 f_equal.
        subst matching. unfold has_marker. by destruct (List.filter _ lines).
      * split; [done|]. intros key Hk Hk'.
        rewrite lookup_insert_ne, lookup_singleton_ne; done.
Qed.

End Validate.

Lemma validate_netlist_spec_witness :
  exists env w',
    validate_netlist (lib := ascii_lib) (VStr "R1 a b 1k") None (world0 [Spawned talker])
    = Ret env w'
    /\ ok env = false
    /\ exit_code (metrics env) = 3
    /\ exists details,
        error env = Some {| err_type := "validation_failed";
                            err_message := "ngspice reported validation errors.";
                            err_details := details |}
        /\ details !! "exit_code" = Some (VInt (PInt 3)).
Proof.
  destruct (validate_netlist_spec (lib := ascii_lib) "R1 a b 1k" None
              (world0 [Spawned talker]))
    as (t & mo & me & mf & Ht & Hmo & Hme & Hmf & H).
  { vm_compute. discriminate. }
  vm_compute in Ht, Hmo, Hme, Hmf.
  injection Ht as <-. injection Hmo as <-. injection Hme as <-. injection Hmf as <-.
  edestruct H as (env & Hv & Hok & _ & _ & Hm & _ & _ & Herr).
  { vm_compute. reflexivity. }
  exists env. eexists. split; [exact Hv|].
  assert (ok env = false) as Hfalse.
  { destruct (ok env); [|reflexivity]. destruct (proj1 Hok eq_refl) as [Hc _].
    discriminate Hc. }
  split; [exact Hfalse|]. split; [by rewrite Hm|].
  destruct (Herr Hfalse) as (details & He & Hx & _). by exists details.
Defined.

(** ** The runner: starting, returning and running out of time *)

Section RunnerExtras.
Context {lib : PyLib}.

Lemma run_process_not_spawned argv0 argv cwd t mo me w :
  0 < int_value t -> 0 < int_value mo -> 0 < int_value me ->
  existsb has_nul (cwd :: argv0 :: argv) = false ->
  w_spawns w = [] \/ (exists rest, w_spawns w = NotFound :: rest) ->
  exists w',
    run_process (argv0 :: argv) cwd t mo me w
    = Raise (ERunner {| error_type := "process_not_found";
                        message := "Executable not found: " +:+ argv0;
                        details := {[ "argv0" := VStr argv0 ]} |}) w'.
Proof.
  intros Ht Hmo Hme Hnul Hspawn. unfold run_process.
  destruct (Z.leb_spec (int_value t) 0); [lia|].
  destruct (Z.leb_spec (int_value mo) 0); [lia|].
  destruct (Z.leb_spec (int_value me) 0); [lia|]. cbn [orb]. unfold popen.
  rewrite Hnul. destruct Hspawn as [->|[rest ->]]; by eexists.
Qed.

(** X1: with valid arguments, what a failing [Popen] makes of the call. A
    NUL character in the command line or in the working directory raises
    [ValueError], whatever the system would have answered, and a
    [FileNotFoundError] raises [process_not_found] with the message
    "Executable not found: " followed by [argv[0]] and the details [{argv0}];
    another [OSError] raises [process_start_failed] with the message of the
    error and the details [{argv}], the command line joined by spaces; an
    exception that is not an [OSError] is not caught and leaves the call as it
    is. In each case [Popen] is the only thing the call did. *)
Theorem run_process_spawn_failure argv0 argv cwd t mo me w :
  0 < int_value t -> 0 < int_value mo -> 0 < int_value me ->
  (existsb has_nul (cwd :: argv0 :: argv) = true ->
   run_process (argv0 :: argv) cwd t mo me w
   = Raise (EOther "ValueError") (log (EPopen (argv0 :: argv) cwd) w))
  /\ (existsb has_nul (cwd :: argv0 :: argv) = false ->
      (w_spawns w = [] \/ (exists rest, w_spawns w = NotFound :: rest) ->
       exists w',
         run_process (argv0 :: argv) cwd t mo me w
         = Raise (ERunner {| error_type := "process_not_found";
                             message := "Executable not found: " +:+ argv0;
                             details := {[ "argv0" := VStr argv0 ]} |}) w'
         /\ w_trace w' = w_trace w ++ [EPopen (argv0 :: argv) cwd])
      /\ (forall msg rest,
             w_spawns w = StartFailed msg :: rest ->
             exists w',
               run_process (argv0 :: argv) cwd t mo me w
               = Raise (ERunner {| error_type := "process_start_failed";
                                   message := msg;
                                   details :=
                                     {[ "argv" := VStr (join " " (argv0 :: argv)) ]} |}) w'
               /\ w_trace w' = w_trace w ++ [EPopen (argv0 :: argv) cwd]
               /\ w_spawns w' = rest)
      /\ (forall cls rest,
             w_spawns w = Raised cls :: rest ->
             exists w',
               run_process (argv0 :: argv) cwd t mo me w = Raise (EOther cls) w'
               /\ w_trace w' = w_trace w ++ [EPopen (argv0 :: argv) cwd]
               /\ w_spawns w' = rest)).
Proof.
  intros Ht Hmo Hme. unfold run_process.
  destruct (Z.leb_spec (int_value t) 0); [lia|].
  destruct (Z.leb_spec (int_value mo) 0); [lia|].
  destruct (Z.leb_spec (int_value me) 0); [lia|]. cbn [orb]. unfold popen.
  split; [by intros ->|]. intros ->. split; [|split].
  - intros [->|[rest ->]]; eexists; by split.
  - intros msg rest ->. eexists. by repeat split.
  - intros cls rest ->. eexists. by repeat split.
Qed.

Lemma run_process_popens_cases argv cwd t mo me w :
  popens (w_trace (world_of (run_process argv cwd t mo me w)))
  = popens (w_trace w)
      ++ (if valid_arguments argv t mo me then [EPopen argv cwd] else []).
Proof.
  unfold valid_arguments.
  destruct argv as [|argv0 argv]; [by rewrite app_nil_r|].
  destruct (Z.ltb_spec 0 (int_value t)) as [Ht|Ht].
  2:{ cbn [andb]. rewrite app_nil_r. unfold run_process.
      destruct (Z.leb_spec (int_value t) 0); [done|lia]. }
  destruct (Z.ltb_spec 0 (int_value mo)) as [Hmo|Hmo].
  2:{ cbn [andb]. rewrite app_nil_r. unfold run_process.
      destruct (Z.leb_spec (int_value t) 0); [done|].
      destruct (Z.leb_spec (int_value mo) 0); [done|lia]. }
  destruct (Z.ltb_spec 0 (int_value me)) as [Hme|Hme].
  2:{ cbn [andb]. rewrite app_nil_r. unfold run_process.
      destruct (Z.leb_spec (int_value t) 0); [done|].
      destruct (Z.leb_spec (int_value mo) 0); [done|]. cbn [orb].
      destruct (Z.leb_spec (int_value me) 0); [done|lia]. }
  cbn [andb]. by apply run_process_popens.
Qed.

(** X2: a call of [run_process] calls [Popen] once, with [argv] and [cwd],
    when its arguments are valid, whatever the call ends in; when they are
    not, it calls nothing at all and leaves the world as it was. *)
Theorem run_process_spawns_once argv cwd t mo me w :
  popens (w_trace (world_of (run_process argv cwd t mo me w)))
  = popens (w_trace w)
      ++ (if valid_arguments argv t mo me then [EPopen argv cwd] else [])
  /\ (valid_arguments argv t mo me = false ->
      world_of (run_process argv cwd t mo me w) = w).
Proof.
  split; [apply run_process_popens_cases|].
  unfold valid_arguments, run_process. destruct argv as [|argv0 argv]; [done|].
  destruct (Z.leb_spec (int_value t) 0); [done|].
  destruct (Z.leb_spec (int_value mo) 0); [done|]. cbn [orb].
  destruct (Z.leb_spec (int_value me) 0); [done|].
  rewrite !andb_false_iff, !Z.ltb_ge. intros [[[?|?]|?]|?]; [done|lia..].
Qed.

Lemma terminate_clock c start w :
  w_clock w <= w_clock (terminate c start w) <= w_clock w + grace_us.
Proof.
  unfold terminate, grace_us. destruct (gone_at c start (w_clock w)) as [t|]; [|cbn; lia].
  destruct (Z.leb_spec t (w_clock w + 500000)); cbn; lia.
Qed.

(** X3: whenever [run_process] raises [timeout], at least [timeout_ms] have
    passed since the call began and less than [timeout_ms] plus one poll
    interval (50 ms) plus the grace period (0.5 s); the details are
    [{timeout_ms}]. *)
Theorem run_process_timeout_overrun argv cwd t mo me w e w' :
  run_process argv cwd t mo me w = Raise (ERunner e) w' ->
  error_type e = "timeout" ->
  int_value t * 1000 <= w_clock w' - w_clock w
  /\ w_clock w' - w_clock w < int_value t * 1000 + poll_us + grace_us
  /\ details e = {[ "timeout_ms" := VInt t ]}.
Proof.
  unfold run_process, invalid_request. destruct argv as [|argv0 argv]; cbv beta iota.
  { intros Hr. by injection Hr as <- <-. }
  destruct (Z.leb_spec (int_value t) 0). { intros Hr. by injection Hr as <- <-. }
  destruct (Z.leb_spec (int_value mo) 0); cbn [orb]. { intros Hr. by injection Hr as <- <-. }
  destruct (Z.leb_spec (int_value me) 0). { intros Hr. by injection Hr as <- <-. }
  assert (w_clock (snd (popen (argv0 :: argv) cwd w)) = w_clock w) as Hclock.
  { unfold popen. destruct (existsb has_nul _); [done|]. by destruct (w_spawns w). }
  destruct (popen _ _ w) as [[c| |msg|cls] w1]; cbn [snd] in Hclock.
  - destruct (FLOAT_INT_LIMIT <=? int_value t); [discriminate|].
    destruct (wait_loop _ _ _ _ _ _ _ _) as [[[|] st] w2] eqn:Hloop.
    + unfold wait. destruct (c_exit_at c); discriminate.
    + apply wait_loop_timed_out_bounds in Hloop; [|unfold poll_us; lia].
      pose proof (terminate_clock c (w_clock w) w2) as Hterm.
      intros Hr. injection Hr as <- <-. intros _. cbn. repeat split; lia.
  - intros Hr. by injection Hr as <- <-.
  - intros Hr. by injection Hr as <- <-.
  - discriminate.
Qed.

(** X4: whenever [run_process] returns, a process was started and has
    exited: the exit code returned is its own, the call did not return before
    the process exited, [elapsed_ms] is the time the call took in whole
    milliseconds and is not negative, and the process was neither terminated
    nor killed. *)
Theorem run_process_return_facts argv cwd t mo me w out err code ms w' :
  run_process argv cwd t mo me w = Ret (out, err, code, ms) w' ->
  exists c rest x tr,
    w_spawns w = Spawned c :: rest
    /\ w_spawns w' = rest
    /\ c_exit_at c = Some x
    /\ code = c_exit_code c
    /\ w_clock w + x <= w_clock w'
    /\ ms = (w_clock w' - w_clock w) / 1000
    /\ 0 <= ms
    /\ w_trace w' = w_trace w ++ tr
    /\ List.filter is_kill_or_terminate tr = [].
Proof.
  unfold run_process. destruct argv as [|argv0 argv]; cbv beta iota; [discriminate|].
  destruct (Z.leb_spec (int_value t) 0); [discriminate|].
  destruct (Z.leb_spec (int_value mo) 0); cbn [orb]; [discriminate|].
  destruct (Z.leb_spec (int_value me) 0); [discriminate|].
  unfold popen. destruct (existsb has_nul _); [discriminate|].
  destruct (w_spawns w) as [|[c| |msg|cls] rest]; try discriminate.
  destruct (FLOAT_INT_LIMIT <=? int_value t); [discriminate|].
  set (w1 := {| w_clock := _ |}).
  destruct (wait_loop _ _ _ _ _ _ _ _) as [[[|] st] w2] eqn:Hloop; [|discriminate].
  eapply wait_loop_sound in Hloop as [tr [Htr Hf _ Hs _ _ Hc]];
    [|lia|lia|by apply loop_init_inv].
  unfold wait. destruct (c_exit_at c) as [x|] eqn:Hx; [|discriminate].
  intros Hr. injection Hr as <- <- <- <- <-.
  exists c, rest, x, ([EPopen (argv0 :: argv) cwd] ++ tr ++ [EWait (0 `max` (w_clock w + x - w_clock w2))]).
  subst w1. cbn in *.
  repeat split; try done; try lia.
  - apply Z.div_pos; lia.
  - rewrite Htr. by rewrite <- !app_assoc.
  - rewrite List.filter_app. cbn. rewrite app_nil_r.
    clear -Hf. induction Hf as [|e tr He _ IH]; [done|]. cbn.
    destruct e; cbn in *; done.
Qed.

Lemma eof_round_closes mo me st :
  stdout_registered st || stderr_registered st = true ->
  exists ev events,
    fst (select st eof_round) = ev :: events
    /\ negb (stdout_registered (fold_left (handle_event mo me) (ev :: events) st)
             || stderr_registered (fold_left (handle_event mo me) (ev :: events) st))
       = true.
Proof.
  destruct st as [ob eb ot et [|] [|]]; cbn; intros H; try discriminate;
    eexists _, _; split; reflexivity.
Qed.

Lemma wait_loop_finishes c start timeout_us mo me rounds :
  forall st w,
    w_clock w - start + Z.of_nat (length rounds) * poll_us < timeout_us ->
    fst (fst (wait_loop c start timeout_us mo me (rounds ++ [eof_round]) st w)) = Finished.
Proof.
  induction rounds as [|r rounds IH]; intros st w Htime; cbn [app wait_loop].
  - destruct (negb _) eqn:Hreg; [done|].
    destruct (Z.leb_spec timeout_us (w_clock w - start)); [cbn in Htime; lia|].
    apply negb_false_iff in Hreg.
    destruct (eof_round_closes mo me st Hreg) as (ev & events & Hsel & Hclosed).
    destruct (select st eof_round) as [events' blocked]. cbn [fst] in Hsel. subst events'.
    cbn [wait_loop]. by rewrite Hclosed.
  - destruct (negb _); [done|].
    destruct (Z.leb_spec timeout_us (w_clock w - start)).
    { cbn [length] in Htime. unfold poll_us in Htime. lia. }
    pose proof (select_blocked st r) as Hb.
    destruct (select st r) as [events blocked]. cbn [snd] in Hb.
    destruct (match events with [] => _ | _ :: _ => false end); [done|].
    apply IH. cbn [length] in Htime. cbn. lia.
Qed.

(** X5: with valid arguments, a [timeout_ms] that a float can hold and a
    command line and directory without NUL characters, a process that starts,
    closes its streams within fewer rounds of the loop than the timeout has
    poll intervals and exits at some time makes [run_process] return, with
    that process's exit code. *)
Theorem run_process_returns_in_time argv cwd t mo me w c rest x :
  argv <> [] ->
  0 < int_value t -> 0 < int_value mo -> 0 < int_value me ->
  int_value t < FLOAT_INT_LIMIT ->
  existsb has_nul (cwd :: argv) = false ->
  w_spawns w = Spawned c :: rest ->
  c_exit_at c = Some x ->
  Z.of_nat (length (c_rounds c)) * poll_us < int_value t * 1000 ->
  exists out err ms w',
    run_process argv cwd t mo me w = Ret (out, err, c_exit_code c, ms) w'.
Proof.
  intros Hargv Ht Hmo Hme Hfloat Hnul Hspawn Hx Htime. unfold run_process.
  destruct argv as [|argv0 argv]; [done|].
  destruct (Z.leb_spec (int_value t) 0); [lia|].
  destruct (Z.leb_spec (int_value mo) 0); [lia|].
  destruct (Z.leb_spec (int_value me) 0); [lia|]. cbn [orb].
  unfold popen. rewrite Hnul, Hspawn.
  destruct (Z.leb_spec FLOAT_INT_LIMIT (int_value t)); [lia|].
  set (w1 := {| w_clock := _ |}).
  pose proof (wait_loop_finishes c (w_clock w) (int_value t * 1000) (int_value mo)
                (int_value me) (c_rounds c) loop_init w1) as Hfin.
  destruct (wait_loop _ _ _ _ _ _ _ _) as [[e st] w2]. cbn [fst] in Hfin.
  rewrite Hfin by (subst w1; cbn; lia).
  unfold wait. rewrite Hx. by eexists _, _, _, _.
Qed.

End RunnerExtras.

Lemma run_process_returns_in_time_witness :
  exists out err ms w',
    run_process (lib := ascii_lib) ["ngspice"; "-v"] "/tmp" (PInt 10000) (PInt 100) (PInt 100)
      (world0 [Spawned quick]) = Ret (out, err, c_exit_code quick, ms) w'.
Proof.
  apply (run_process_returns_in_time (lib := ascii_lib) _ _ _ _ _ _ quick [] 3000).
  - discriminate.
  - simpl; lia.
  - simpl; lia.
  - simpl; lia.
  - vm_compute. reflexivity.
  - reflexivity.
  - reflexivity.
  - reflexivity.
  - vm_compute. reflexivity.
Defined.

Lemma run_process_spawn_failure_witness :
  run_process (lib := ascii_lib) [String "000" "b"] "/tmp"
    (PInt 100) (PInt 10) (PInt 10) (world0 [])
  = Raise (EOther "ValueError") (log (EPopen [String "000" "b"] "/tmp") (world0 []))
  /\ exists w',
      run_process (lib := ascii_lib) ["nonexistent-binary-xyz"] "/tmp"
        (PInt 100) (PInt 10) (PInt 10) (world0 [])
      = Raise (ERunner {| error_type := "process_not_found";
                          message := "Executable not found: " +:+ "nonexistent-binary-xyz";
                          details := {[ "argv0" := VStr "nonexistent-binary-xyz" ]} |}) w'
      /\ w_trace w' = w_trace (world0 []) ++ [EPopen ["nonexistent-binary-xyz"] "/tmp"].
Proof.
  split.
  - refine (proj1 (run_process_spawn_failure (lib := ascii_lib) (String "000" "b") []
                     "/tmp" (PInt 100) (PInt 10) (PInt 10) (world0 []) _ _ _) _);
      [simpl; lia..|reflexivity].
  - refine (proj1 (proj2 (run_process_spawn_failure (lib := ascii_lib)
                            "nonexistent-binary-xyz" [] "/tmp" (PInt 100) (PInt 10)
                            (PInt 10) (world0 []) _ _ _) _) _);
      [simpl; lia..|reflexivity|left; reflexivity].
Defined.

Lemma run_process_timeout_overrun_witness :
  exists e w',
    run_process (lib := ascii_lib) ["sleeper"] "/tmp" (PInt 100) (PInt 10) (PInt 10)
      (world0 [Spawned sleeper]) = Raise (ERunner e) w'
    /\ int_value (PInt 100) * 1000 <= w_clock w' - w_clock (world0 [Spawned sleeper])
    /\ w_clock w' - w_clock (world0 [Spawned sleeper])
       < int_value (PInt 100) * 1000 + poll_us + grace_us
    /\ details e = {[ "timeout_ms" := VInt (PInt 100) ]}.
Proof.
  eexists _, _. split; [vm_compute; reflexivity|].
  eapply (run_process_timeout_overrun (lib := ascii_lib) ["sleeper"] "/tmp" (PInt 100)
            (PInt 10) (PInt 10) (world0 [Spawned sleeper])).
  - vm_compute. reflexivity.
  - reflexivity.
Defined.

Lemma run_process_return_facts_witness :
  exists c rest x tr w',
    w_spawns (world0 [Spawned talker]) = Spawned c :: rest
    /\ w_spawns w' = rest
    /\ c_exit_at c = Some x
    /\ 3 = c_exit_code c
    /\ w_clock (world0 [Spawned talker]) + x <= w_clock w'
    /\ 0 = (w_clock w' - w_clock (world0 [Spawned talker])) / 1000
    /\ 0 <= 0
    /\ w_trace w' = w_trace (world0 [Spawned talker]) ++ tr
    /\ List.filter is_kill_or_terminate tr = [].
Proof.
  destruct (run_process_return_facts (lib := ascii_lib) ["talker"] "/tmp" (PInt 100)
              (PInt 8) (PInt 1000) (world0 [Spawned talker])
              ("hello wo" +:+ nl +:+ "[stdout truncated]") "oops" 3 0
              (world_of (run_process (lib := ascii_lib) ["talker"] "/tmp" (PInt 100)
                           (PInt 8) (PInt 1000) (world0 [Spawned talker]))))
    as (c & rest & x & tr & H).
  { vm_compute. reflexivity. }
  exists c, rest, x, tr. eexists. exact H.
Defined.

(** ** The merged limits *)

Lemma default_of_keys key : is_Some (default_of key) <-> key ∈ LIMIT_KEYS.
Proof.
  unfold default_of, LIMIT_KEYS. split.
  - intros [d Hd]. apply (elem_of_list_to_map_2 DEFAULT_LIMITS) in Hd.
    apply (list_elem_of_fmap_2 fst) in Hd. exact Hd.
  - intros Hin.
    repeat (apply elem_of_cons in Hin as [->|Hin]; [by eexists|]).
    by apply elem_of_nil in Hin.
Qed.

Lemma default_of_int key d : default_of key = Some d -> isinstance_int d = true.
Proof.
  intros Hd. assert (key ∈ LIMIT_KEYS) as Hin by (apply default_of_keys; by eexists).
  repeat (apply elem_of_cons in Hin as [->|Hin];
          [vm_compute in Hd; by injection Hd as <-|]).
  by apply elem_of_nil in Hin.
Qed.

Lemma build_limits_values limits key v :
  _build_limits limits !! key = Some v -> isinstance_int v = true.
Proof.
  rewrite build_limits_lookup. destruct (default_of key) as [d|] eqn:Hd; [|done].
  apply default_of_int in Hd.
  destruct (limits ≫= _) as [x|]; [destruct (isinstance_int x) eqn:Hx|];
    intros [= <-]; done.
Qed.

(** X6: the merged limits have exactly the four keys of [DEFAULT_LIMITS],
    each with an [int] for value; merging the result again changes nothing;
    and the result depends only on what the request holds under those four
    keys. *)
Theorem build_limits_shape (limits limits' : option (gmap string PyVal)) :
  dom (_build_limits limits) = list_to_set LIMIT_KEYS
  /\ (forall key v, _build_limits limits !! key = Some v -> isinstance_int v = true)
  /\ _build_limits (Some (_build_limits limits)) = _build_limits limits
  /\ ((forall key, key ∈ LIMIT_KEYS ->
                   limits ≫= (fun l => l !! key) = limits' ≫= (fun l => l !! key)) ->
      _build_limits limits = _build_limits limits').
Proof.
  split; [|split; [|split]].
  - apply set_eq. intros key. rewrite elem_of_dom, elem_of_list_to_set, <- default_of_keys.
    rewrite build_limits_lookup. destruct (default_of key); split; intros [? ?]; by eexists.
  - apply build_limits_values.
  - apply map_eq. intros key. rewrite (build_limits_lookup (Some _)).
    cbn [mbind option_bind].
    destruct (_build_limits limits !! key) as [v|] eqn:Hv.
    + rewrite (build_limits_values _ _ _ Hv).
      rewrite build_limits_lookup in Hv. by destruct (default_of key).
    + rewrite build_limits_lookup in Hv. by destruct (default_of key).
  - intros Hagree. apply map_eq. intros key. rewrite !build_limits_lookup.
    destruct (default_of key) as [d|] eqn:Hd; [|done].
    rewrite Hagree; [done|]. apply default_of_keys. by eexists.
Qed.

(** ** What is collected *)

Lemma NoDup_map_filter {A B} (f : A -> B) (p : A -> bool) (l : list A) :
  NoDup (List.map f l) -> NoDup (List.map f (List.filter p l)).
Proof.
  induction l as [|x l IH]; simpl; [done|].
  intros Hnd. apply NoDup_cons in Hnd as [Hx Hl].
  destruct (p x); simpl; [|by apply IH].
  apply NoDup_cons. split; [|by apply IH].
  intros Hin. apply Hx. apply list_elem_of_In in Hin. apply list_elem_of_In.
  apply in_map_iff in Hin as (y & Hy & Hin). apply in_map_iff. exists y.
  split; [exact Hy|]. by apply List.filter_In in Hin as [Hin _].
Qed.

Section CollectExtras.
Context {lib : PyLib}.

(** X7: every collected file has, once lower-cased, one of the suffixes
    [.log], [.raw], [.txt], so the netlists [input.cir] and [smoke.cir] are
    never returned; there are no more files than entries; raising
    [max_file_bytes] loses no file; a negative [max_file_bytes] collects
    nothing; and distinct entry names give distinct file names. *)
Theorem collect_files_bounds (workdir : list Entry) (max_file_bytes max' : PyInt) :
  (forall a, In a (_collect_files workdir max_file_bytes) ->
             In (lower (suffix (f_name a))) ALLOWED_FILE_EXTENSIONS
             /\ f_name a <> "input.cir" /\ f_name a <> "smoke.cir")
  /\ (length (_collect_files workdir max_file_bytes) <= length workdir)%nat
  /\ (int_value max_file_bytes <= int_value max' ->
      forall a, In a (_collect_files workdir max_file_bytes) ->
                In a (_collect_files workdir max'))
  /\ (int_value max_file_bytes < 0 -> _collect_files workdir max_file_bytes = [])
  /\ (NoDup (List.map e_name workdir) ->
      NoDup (List.map f_name (_collect_files workdir max_file_bytes))).
Proof.
  assert (forall m a, In a (_collect_files workdir m) ->
                      exists e, a = artifact e /\ In e workdir /\ collectable m e = true)
    as Hin.
  { intros m a Ha. unfold _collect_files in Ha. apply in_map_iff in Ha as (e & <- & He).
    apply List.filter_In in He as [He Hc]. exists e. repeat split; [|exact Hc].
    eapply Permutation_in; [apply sorted_by_name_perm|exact He]. }
  split; [|split; [|split; [|split]]].
  - intros a Ha. apply Hin in Ha as (e & -> & _ & Hc).
    apply collectable_iff in Hc as (_ & Hx & _). cbn [artifact f_name].
    split; [exact Hx|].
    split; intros Hname; rewrite Hname in Hx; vm_compute in Hx; intuition discriminate.
  - unfold _collect_files. rewrite length_map.
    etransitivity; [apply List.filter_length_le|].
    by rewrite (Permutation_length (sorted_by_name_perm workdir)).
  - intros Hle a Ha. apply Hin in Ha as (e & -> & He & Hc).
    unfold _collect_files. apply in_map. apply List.filter_In. split.
    + eapply Permutation_in; [symmetry; apply sorted_by_name_perm|exact He].
    + apply collectable_iff. apply collectable_iff in Hc as (Hf & Hx & Hs).
      repeat split; try assumption. lia.
  - intros Hneg. destruct (_collect_files workdir max_file_bytes) as [|a l] eqn:Hc; [done|].
    destruct (Hin max_file_bytes a) as (e & _ & _ & He); [rewrite Hc; by left|].
    apply collectable_iff in He as (_ & _ & Hs). lia.
  - intros Hnd. unfold _collect_files. rewrite List.map_map. cbn [artifact f_name].
    apply NoDup_map_filter.
    assert (List.map e_name (sorted_by_name workdir) ≡ₚ List.map e_name workdir) as ->.
    { apply Permutation_map, sorted_by_name_perm. }
    exact Hnd.
Qed.

End CollectExtras.

(** ** The log *)

Lemma lower_char_linebreak c :
  is_linebreak (lower_char c) = is_linebreak c
  /\ (code (lower_char c) =? 13)%N = (code c =? 13)%N
  /\ (code (lower_char c) =? 10)%N = (code c =? 10)%N
  /\ lower_char (lower_char c) = lower_char c.
Proof.
  destruct c as [[|] [|] [|] [|] [|] [|] [|] [|]]; vm_compute; repeat split.
Qed.

Lemma lower_append a b : lower (a +:+ b) = lower a +:+ lower b.
Proof. induction a as [|c a IH]; simpl; [done|]. by rewrite IH. Qed.

Lemma lower_idem s : lower (lower s) = lower s.
Proof.
  induction s as [|c s IH]; simpl; [done|].
  rewrite IH. by destruct (lower_char_linebreak c) as (_ & _ & _ & ->).
Qed.

Lemma lower_empty s : String.eqb (lower s) "" = String.eqb s "".
Proof. by destruct s. Qed.

Lemma splitlines_from_lower_bounded n :
  forall s cur,
    (String.length s <= n)%nat ->
    splitlines_from (lower cur) (lower s) = List.map lower (splitlines_from cur s).
Proof.
  induction n as [|n IH]; intros s cur Hlen.
  - destruct s; [|cbn in Hlen; lia]. cbn [lower splitlines_from].
    rewrite lower_empty. by destruct (String.eqb cur "").
  - destruct s as [|c r]; cbn [lower splitlines_from].
    { rewrite lower_empty. by destruct (String.eqb cur ""). }
    cbn in Hlen.
    destruct (lower_char_linebreak c) as (-> & H13 & _ & _).
    destruct (is_linebreak c).
    + cbn [List.map]. f_equal. destruct r as [|c' r']; cbn [lower]; [done|].
      destruct (lower_char_linebreak c') as (_ & _ & H10 & _).
      rewrite H13, H10. cbn in Hlen. destruct (_ && _)%N.
      * change "" with (lower ""). apply IH. lia.
      * change "" with (lower "") at 1.
        apply (IH (String c' r')). cbn. lia.
    + rewrite <- IH by lia. by rewrite lower_append.
Qed.

Lemma splitlines_from_lower s cur :
  splitlines_from (lower cur) (lower s) = List.map lower (splitlines_from cur s).
Proof. by apply (splitlines_from_lower_bounded (String.length s)). Qed.

Lemma in_firstn {A} (n : nat) (l : list A) (x : A) : In x (firstn n l) -> In x l.
Proof. intros H. rewrite <- (firstn_skipn n l). apply in_or_app. by left. Qed.

Section LogExtras.
Context {lib : PyLib}.

Lemma log_has_errors_filter log_text :
  _log_has_errors log_text
  = match List.filter (fun line => has_marker (lower line)) (splitlines log_text) with
    | [] => false
    | _ :: _ => true
    end.
Proof.
  unfold _log_has_errors. induction (splitlines log_text) as [|x l IH]; cbn; [done|].
  destruct (has_marker (lower x)); [done|]. exact IH.
Qed.

(** X8: [_log_has_errors] does not depend on the case of the log. *)
Theorem log_has_errors_ignores_case (log_text : string) :
  _log_has_errors (lower log_text) = _log_has_errors log_text.
Proof.
  unfold _log_has_errors, splitlines.
  change "" with (lower "") at 1. rewrite splitlines_from_lower, List.map_map.
  f_equal. apply List.map_ext. intros line. apply lower_idem.
Qed.

(** X9: for a non-negative [limit_lines] the excerpt is at most
    [limit_lines] lines of the log joined by newlines; when the log has error
    lines they are all error lines, and there is one if [limit_lines] is
    positive; otherwise they are the first [limit_lines] lines of the log; the
    excerpt of an empty log is empty. *)
Theorem log_excerpt_shape (log_text : string) (limit_lines : Z) :
  0 <= limit_lines ->
  exists lines,
    _log_relevant_excerpt log_text limit_lines = join nl lines
    /\ (length lines <= Z.to_nat limit_lines)%nat
    /\ (forall line, In line lines -> In line (splitlines log_text))
    /\ (_log_has_errors log_text = true ->
        (forall line, In line lines -> has_marker (lower line) = true)
        /\ (0 < limit_lines -> lines <> []))
    /\ (_log_has_errors log_text = false ->
        lines = take limit_lines (splitlines log_text))
    /\ (log_text = "" -> _log_relevant_excerpt log_text limit_lines = "").
Proof.
  intros Hn. rewrite log_has_errors_filter. unfold _log_relevant_excerpt, take.
  destruct (List.filter _ _) as [|x relevant] eqn:Hf.
  - exists (firstn (Z.to_nat limit_lines) (splitlines log_text)).
    split; [done|]. split; [rewrite length_firstn; lia|].
    split; [intros line; apply in_firstn|].
    split; [discriminate|]. split; [done|]. intros ->. cbn. by rewrite firstn_nil.
  - exists (firstn (Z.to_nat limit_lines) (x :: relevant)).
    split; [done|]. split; [rewrite length_firstn; lia|].
    assert (forall line, In line (firstn (Z.to_nat limit_lines) (x :: relevant)) ->
                         In line (splitlines log_text) /\ has_marker (lower line) = true)
      as Hin.
    { intros line Hl. apply in_firstn in Hl. rewrite <- Hf in Hl.
      by apply List.filter_In in Hl. }
    split; [intros line Hl; by apply Hin|].
    split.
    + intros _. split; [intros line Hl; by apply Hin|].
      intros Hpos. destruct (Z.to_nat limit_lines) eqn:Hz; [lia|]. done.
    + split; [discriminate|]. intros ->. discriminate Hf.
Qed.

End LogExtras.

Lemma log_excerpt_shape_witness :
  exists lines,
    _log_relevant_excerpt ("ok" +:+ nl +:+ "Fatal: x" +:+ nl +:+ "ERROR: y") 1 = join nl lines
    /\ (length lines <= Z.to_nat 1)%nat.
Proof.
  destruct (log_excerpt_shape ("ok" +:+ nl +:+ "Fatal: x" +:+ nl +:+ "ERROR: y") 1)
    as (lines & H1 & H2 & _); [lia|].
  by exists lines.
Defined.

(** ** The adapter: command lines, directories and failures *)

Lemma has_nul_app a b : has_nul (a +:+ b) = has_nul a || has_nul b.
Proof. induction a as [|c a IH]; simpl; [done|]. by rewrite IH, orb_assoc. Qed.

Lemma pretty_N_go_no_nul x s : has_nul s = false -> has_nul (pretty_N_go x s) = false.
Proof.
  revert s. induction (N.lt_wf_0 x) as [x _ IH]; intros s Hs.
  assert (x = 0 \/ 0 < x)%N as [->|Hx] by lia.
  - by rewrite pretty_N_go_0.
  - rewrite pretty_N_go_step by done. apply IH; [by apply N.div_lt|].
    cbn [has_nul]. rewrite Hs, orb_false_r.
    unfold pretty_N_char. by repeat case_match.
Qed.

Lemma mkdtemp_no_nul w : has_nul (fst (mkdtemp w)) = false.
Proof.
  change (fst (mkdtemp w)) with ("/tmp/autosage_ngspice_" +:+ pretty (w_tmp w)).
  rewrite has_nul_app.
  unfold pretty, pretty_nat, pretty, pretty_N.
  destruct (decide _); [done|]. by rewrite pretty_N_go_no_nul.
Qed.

Section AdapterExtras.
Context {lib : PyLib}.

Lemma run_with_limits limits argv cwd w :
  run_with (_build_limits limits) argv cwd w
  = run_process argv cwd (limit_of (_build_limits limits) "timeout_ms")
      (limit_of (_build_limits limits) "max_stdout_bytes")
      (limit_of (_build_limits limits) "max_stderr_bytes") w.
Proof.
  destruct (build_limits_int limits "timeout_ms") as [t Ht]; [set_solver|].
  destruct (build_limits_int limits "max_stdout_bytes") as [mo Hmo]; [set_solver|].
  destruct (build_limits_int limits "max_stderr_bytes") as [me Hme]; [set_solver|].
  unfold limit_of. rewrite Ht, Hmo, Hme. by apply run_with_eq.
Qed.

Lemma cfg_int_limits limits w :
  cfg_int (_build_limits limits) "max_file_bytes" w
  = Ret (limit_of (_build_limits limits) "max_file_bytes") w.
Proof.
  destruct (build_limits_int limits "max_file_bytes") as [mf Hmf]; [set_solver|].
  unfold cfg_int, limit_of. by rewrite Hmf.
Qed.

Lemma validate_netlist_blank (netlist_text : PyVal)
    (limits : option (gmap string PyVal)) (w : World) :
  (forall text, netlist_text = VStr text -> strip text = "") ->
  validate_netlist netlist_text limits w
  = Ret {| ok := false; stdout := ""; stderr := ""; files := [];
           metrics := {| elapsed_ms := 0; exit_code := -1 |};
           error := Some {| err_type := "invalid_input";
                            err_message := "netlist_text must be a non-empty string.";
                            err_details := ∅ |} |} w.
Proof.
  intros Hblank. unfold validate_netlist. destruct netlist_text; try reflexivity.
  by rewrite (Hblank s eq_refl).
Qed.

(** X10: a [netlist_text] that is not a string, or is one made of white space
    only, is answered [invalid_input] with the message "netlist_text must be a
    non-empty string.", whatever the limits; nothing is written or run. *)
Theorem validate_netlist_rejects_blank (netlist_text : PyVal)
    (limits : option (gmap string PyVal)) (w : World) :
  (forall text, netlist_text = VStr text -> strip text = "") ->
  validate_netlist netlist_text limits w
  = Ret {| ok := false; stdout := ""; stderr := ""; files := [];
           metrics := {| elapsed_ms := 0; exit_code := -1 |};
           error := Some {| err_type := "invalid_input";
                            err_message := "netlist_text must be a non-empty string.";
                            err_details := ∅ |} |} w.
Proof.
  intros Hblank. unfold validate_netlist.
  destruct netlist_text as [| | |text| |]; try reflexivity.
  by rewrite (Hblank text eq_refl).
Qed.

(** X11: [smoketest] runs [ngspice -b -r smoke.raw -o smoke.log smoke.cir]
    with the merged limits in a fresh directory that holds [smoke.cir] only.
    When the run returns, the envelope carries its output, exit code and
    elapsed time and the files collected under [max_file_bytes]; [ok] holds
    exactly when the exit code is 0 and a file was collected, and the error is
    [process_failed] otherwise. A [RunnerError] becomes its envelope; a run
    that blocks makes the operation block. *)
Theorem smoketest_spec (limits : option (gmap string PyVal)) (w : World) :
  let cfg := _build_limits limits in
  let tmp := fst (mkdtemp w) in
  let w0 := world_of (write_text "smoke.cir" smoke_netlist (snd (mkdtemp w))) in
  let run := run_process SMOKE_ARGV tmp (limit_of cfg "timeout_ms")
               (limit_of cfg "max_stdout_bytes") (limit_of cfg "max_stderr_bytes") in
  w_dir w0 = [ {| e_name := "smoke.cir"; e_is_file := true;
                  e_data := encode_utf8 smoke_netlist |} ]
  /\ (forall out err code ms w1,
         run w0 = Ret (out, err, code, ms) w1 ->
         let collected := _collect_files (w_dir w1) (limit_of cfg "max_file_bytes") in
         exists env,
           smoketest limits w = Ret env (rmtree tmp w1)
           /\ (ok env = true <-> code = 0 /\ collected <> [])
           /\ stdout env = out /\ stderr env = err
           /\ metrics env = {| elapsed_ms := ms; exit_code := code |}
           /\ files env = collected
           /\ error env = if ok env then None else Some smoke_failed)
  /\ (forall e w1,
         run w0 = Raise (ERunner e) w1 ->
         smoketest limits w = Ret (runner_envelope e) (rmtree tmp w1))
  /\ (forall w1, run w0 = Hang w1 -> smoketest limits w = Hang w1).
Proof.
  intros cfg tmp w0 run.
  assert (smoketest limits w
          = match run w0 with
            | Ret (out, err, code, ms) w1 =>
                let files := _collect_files (w_dir w1) (limit_of cfg "max_file_bytes") in
                let ok := (code =? 0) && (0 <? Z.of_nat (length files)) in
                Ret (_response ok out err files ms code
                       (if negb ok then Some smoke_failed else None)) (rmtree tmp w1)
            | Raise (ERunner e) w1 => Ret (runner_envelope e) (rmtree tmp w1)
            | Raise e w1 => Raise e (rmtree tmp w1)
            | Hang w1 => Hang w1
            end) as Hs.
  { unfold smoketest, TemporaryDirectory, try_runner, bind, runner_failed, ret, collect.
    subst cfg tmp w0 run. destruct (mkdtemp w) as [tmp w0]. cbn [fst snd world_of write_text].
    rewrite run_with_limits. fold SMOKE_ARGV.
    destruct (run_process SMOKE_ARGV _ _ _ _ _) as [[[[out err] code] ms] w1|[e|cls] w1|w1];
      try reflexivity.
    by rewrite cfg_int_limits. }
  split; [|split; [|split]].
  - subst w0. reflexivity.
  - intros out err code ms w1 Hrun collected. rewrite Hs, Hrun. eexists. split; [reflexivity|].
    cbn [ok stdout stderr metrics files error _response]. fold collected.
    split.
    { rewrite andb_true_iff, Z.eqb_eq, Z.ltb_lt. destruct collected; cbn; split;
        intros [? ?]; split; try done; lia. }
    repeat (split; [reflexivity|]).
    by destruct ((code =? 0) && _).
  - intros e w1 Hrun. by rewrite Hs, Hrun.
  - intros w1 Hrun. by rewrite Hs, Hrun.
Qed.

Lemma smoketest_world limits w :
  let cfg := _build_limits limits in
  let r := run_process SMOKE_ARGV (fst (mkdtemp w)) (limit_of cfg "timeout_ms")
             (limit_of cfg "max_stdout_bytes") (limit_of cfg "max_stderr_bytes")
             (world_of (write_text "smoke.cir" smoke_netlist (snd (mkdtemp w)))) in
  world_of (smoketest limits w) = close (fst (mkdtemp w)) r
  /\ is_hang (smoketest limits w) = is_hang r.
Proof.
  intros cfg r. subst r.
  unfold smoketest, TemporaryDirectory, try_runner, bind, runner_failed, ret, collect.
  subst cfg. destruct (mkdtemp w) as [tmp w0]. cbn [fst snd world_of write_text].
  rewrite run_with_limits. fold SMOKE_ARGV.
  destruct (run_process SMOKE_ARGV _ _ _ _ _) as [[[[out err] code] ms] w1|[e|cls] w1|w1];
    try (split; reflexivity).
  rewrite cfg_int_limits. split; reflexivity.
Qed.

Lemma validate_netlist_world text limits w :
  strip text <> "" ->
  let cfg := _build_limits limits in
  let r := run_process VALIDATE_ARGV (fst (mkdtemp w)) (limit_of cfg "timeout_ms")
             (limit_of cfg "max_stdout_bytes") (limit_of cfg "max_stderr_bytes")
             (world_of (write_text "input.cir" text (snd (mkdtemp w)))) in
  world_of (validate_netlist (VStr text) limits w) = close (fst (mkdtemp w)) r
  /\ is_hang (validate_netlist (VStr text) limits w) = is_hang r.
Proof.
  intros Htext cfg r. subst r. unfold validate_netlist.
  destruct (String.eqb_spec (strip text) "") as [|_]; [done|].
  unfold TemporaryDirectory, try_runner, bind, runner_failed, ret, collect, read_log.
  subst cfg. destruct (mkdtemp w) as [tmp w0]. cbn [fst snd world_of write_text].
  rewrite run_with_limits. fold VALIDATE_ARGV.
  destruct (run_process VALIDATE_ARGV _ _ _ _ _) as [[[[out err] code] ms] w1|[e|cls] w1|w1];
    try (split; reflexivity).
  destruct (List.find _ _); rewrite cfg_int_limits; split; reflexivity.
Qed.

Lemma version_world limits w :
  let cfg := _build_limits limits in
  let tmp := fst (mkdtemp w) in
  let run flag := run_process ["ngspice"; flag] tmp (limit_of cfg "timeout_ms")
                    (limit_of cfg "max_stdout_bytes") (limit_of cfg "max_stderr_bytes") in
  world_of (version limits w)
  = match run "-v" (snd (mkdtemp w)) with
    | Ret (_, _, code, _) w1 =>
        if code =? 0 then rmtree tmp w1 else close tmp (run "-V" w1)
    | r => close tmp r
    end
  /\ is_hang (version limits w)
     = match run "-v" (snd (mkdtemp w)) with
       | Ret (_, _, code, _) w1 => if code =? 0 then false else is_hang (run "-V" w1)
       | r => is_hang r
       end.
Proof.
  intros cfg tmp run.
  unfold version, TemporaryDirectory, try_runner, bind, runner_failed, ret.
  subst cfg tmp run. destruct (mkdtemp w) as [tmp w0]. cbn [fst snd].
  rewrite run_with_limits.
  destruct (run_process ["ngspice"; "-v"] _ _ _ _ _)
    as [[[[out err] code] ms] w1|[e|cls] w1|w1]; try (split; reflexivity).
  cbn [fst snd]. destruct (code =? 0); cbn [negb]; [split; reflexivity|].
  rewrite run_with_limits.
  destruct (run_process ["ngspice"; "-V"] _ _ _ _ _)
    as [[[[out' err'] code'] ms'] w2|[e|cls] w2|w2]; split; reflexivity.
Qed.

Lemma run_process_extends argv cwd t mo me w :
  exists tr,
    w_trace (world_of (run_process argv cwd t mo me w)) = w_trace w ++ tr
    /\ List.filter is_tempdir_effect tr = [].
Proof.
  unfold run_process. destruct argv as [|argv0 argv]; cbv beta iota.
  { exists []. by rewrite app_nil_r. }
  destruct (int_value t <=? 0). { exists []. by rewrite app_nil_r. }
  destruct ((int_value mo <=? 0) || (int_value me <=? 0)).
  { exists []. by rewrite app_nil_r. }
  assert (w_trace (snd (popen (argv0 :: argv) cwd w))
          = w_trace w ++ [EPopen (argv0 :: argv) cwd]) as Hw1.
  { unfold popen. destruct (existsb has_nul _); [done|]. by destruct (w_spawns w). }
  destruct (popen _ _ w) as [[c| |msg|cls] w1]; cbn [snd] in Hw1; cbn [world_of].
  2,3,4: by exists [EPopen (argv0 :: argv) cwd].
  destruct (FLOAT_INT_LIMIT <=? int_value t);
    [cbn [world_of]; by exists [EPopen (argv0 :: argv) cwd]|].
  destruct (wait_loop _ _ _ _ _ _ _ _) as [[e st] w2] eqn:Hloop.
  assert (exists tr, w_trace w2 = w_trace w1 ++ tr
                     /\ List.filter is_tempdir_effect tr = []) as (tr & Htr & Hf).
  { clear Hw1. revert Hloop. generalize loop_init. generalize (c_rounds c ++ [eof_round]).
    intros rounds. revert w1.
    induction rounds as [|r rounds IH]; intros w1 st0; cbn [wait_loop].
    - destruct (negb _); [|destruct (_ <=? _)]; intros [= _ _ <-]; exists [];
        by rewrite app_nil_r.
    - destruct (negb _). { intros [= _ _ <-]. exists []. by rewrite app_nil_r. }
      destruct (_ <=? _). { intros [= _ _ <-]. exists []. by rewrite app_nil_r. }
      destruct (select st0 r) as [events blocked].
      destruct (match events with [] => _ | _ :: _ => false end).
      { intros [= _ _ <-]. by exists [ESelect blocked]. }
      intros Hloop. apply IH in Hloop as (tr & -> & Hf). cbn.
      exists (ESelect blocked :: List.map (fun ev => ERead (fst ev) (snd ev)) events ++ tr).
      split; [by rewrite <- !app_assoc|]. cbn. rewrite List.filter_app, Hf, app_nil_r.
      clear. induction events as [|ev events IH]; [done|]. exact IH. }
  destruct e.
  - unfold wait. destruct (c_exit_at c); cbn [world_of].
    + eexists ([EPopen (argv0 :: argv) cwd] ++ tr ++ [EWait _]). cbn.
      rewrite Htr, Hw1. split; [by rewrite <- !app_assoc|].
      rewrite List.filter_app, Hf. reflexivity.
    + exists ([EPopen (argv0 :: argv) cwd] ++ tr). rewrite Htr, Hw1.
      split; [by rewrite <- !app_assoc|]. exact Hf.
  - cbn [world_of].
    destruct (terminate_trace c (w_clock w) w2) as [[_ (d & _ & ->)]|[_ ->]].
    + exists ([EPopen (argv0 :: argv) cwd] ++ tr ++ [ETerminate; EWaitFor grace_us d]).
      rewrite Htr, Hw1. split; [by rewrite <- !app_assoc|]. cbn.
      rewrite List.filter_app, Hf. reflexivity.
    + exists ([EPopen (argv0 :: argv) cwd] ++ tr ++ [ETerminate; EWaitFor grace_us grace_us; EKill]).
      rewrite Htr, Hw1. split; [by rewrite <- !app_assoc|]. cbn.
      rewrite List.filter_app, Hf. reflexivity.
Qed.

Lemma popens_rmtree tmp w : popens (w_trace (rmtree tmp w)) = popens (w_trace w).
Proof. cbn. rewrite popens_app. cbn. by rewrite app_nil_r. Qed.

Lemma popens_close {A} tmp (r : Res A) :
  popens (w_trace (close tmp r)) = popens (w_trace (world_of r)).
Proof. destruct r; cbn [close world_of]; by rewrite ?popens_rmtree. Qed.

Lemma valid_arguments_limits limits argv :
  argv <> [] ->
  valid_arguments argv (limit_of (_build_limits limits) "timeout_ms")
    (limit_of (_build_limits limits) "max_stdout_bytes")
    (limit_of (_build_limits limits) "max_stderr_bytes")
  = limits_accepted limits.
Proof. by destruct argv. Qed.

(** X12: [smoketest] and, for a netlist that is not blank, [validate_netlist]
    start exactly one process when the merged limits are accepted by the
    runner, with their own command line and the temporary directory as working
    directory, and none otherwise; [version] starts none when the limits are
    not accepted. *)
Theorem adapter_command_lines (limits : option (gmap string PyVal)) (text : string)
    (w : World) :
  let tmp := fst (mkdtemp w) in
  popens (w_trace (world_of (smoketest limits w)))
  = popens (w_trace w)
      ++ (if limits_accepted limits then [EPopen SMOKE_ARGV tmp] else [])
  /\ (strip text <> "" ->
      popens (w_trace (world_of (validate_netlist (VStr text) limits w)))
      = popens (w_trace w)
          ++ (if limits_accepted limits then [EPopen VALIDATE_ARGV tmp] else []))
  /\ (limits_accepted limits = false ->
      popens (w_trace (world_of (version limits w))) = popens (w_trace w)).
Proof.
  intros tmp. split; [|split].
  - rewrite (proj1 (smoketest_world limits w)). rewrite popens_close, run_process_popens_cases.
    rewrite valid_arguments_limits by done. f_equal.
    cbn. rewrite !popens_app. cbn. by rewrite !app_nil_r.
  - intros Htext. rewrite (proj1 (validate_netlist_world text limits w Htext)).
    rewrite popens_close, run_process_popens_cases.
    rewrite valid_arguments_limits by done. f_equal.
    cbn. rewrite !popens_app. cbn. by rewrite !app_nil_r.
  - intros Hbad. rewrite (proj1 (version_world limits w)).
    pose proof (run_process_popens_cases ["ngspice"; "-v"] (fst (mkdtemp w))
                  (limit_of (_build_limits limits) "timeout_ms")
                  (limit_of (_build_limits limits) "max_stdout_bytes")
                  (limit_of (_build_limits limits) "max_stderr_bytes")
                  (snd (mkdtemp w))) as Hp.
    rewrite valid_arguments_limits, Hbad, app_nil_r in Hp by done.
    assert (exists e, run_process ["ngspice"; "-v"] (fst (mkdtemp w))
                  (limit_of (_build_limits limits) "timeout_ms")
                  (limit_of (_build_limits limits) "max_stdout_bytes")
                  (limit_of (_build_limits limits) "max_stderr_bytes")
                  (snd (mkdtemp w)) = Raise e (snd (mkdtemp w))) as [e He].
    { unfold limits_accepted in Hbad. unfold run_process.
      destruct (Z.leb_spec (int_value (limit_of (_build_limits limits) "timeout_ms")) 0);
        [by eexists|].
      destruct (Z.leb_spec (int_value (limit_of (_build_limits limits) "max_stdout_bytes")) 0);
        cbn [orb]; [by eexists|].
      destruct (Z.leb_spec (int_value (limit_of (_build_limits limits) "max_stderr_bytes")) 0);
        [by eexists|].
      exfalso. revert Hbad. rewrite !andb_false_iff, !Z.ltb_ge. lia. }
    rewrite He. cbn [close]. rewrite popens_rmtree.
    cbn. rewrite popens_app. cbn. by rewrite app_nil_r.
Qed.

Lemma run_process_keeps_counter argv cwd t mo me w0 :
  w_tmp (world_of (run_process argv cwd t mo me w0)) = w_tmp w0.
Proof.
  unfold run_process. destruct argv as [|argv0 argv]; [done|].
  destruct (_ <=? _); [done|]. destruct (_ || _); [done|].
  assert (w_tmp (snd (popen (argv0 :: argv) cwd w0)) = w_tmp w0) as Hw1.
  { unfold popen. destruct (existsb has_nul _); [done|]. by destruct (w_spawns w0). }
  destruct (popen _ _ w0) as [[c| |msg|cls] w1]; cbn [snd] in Hw1; cbn [world_of]; try done.
  destruct (FLOAT_INT_LIMIT <=? int_value t); [done|].
  destruct (wait_loop _ _ _ _ _ _ _ _) as [[e st] w2] eqn:Hloop.
  assert (w_tmp w2 = w_tmp w1) as Hw2.
  { revert Hloop. generalize loop_init. generalize (c_rounds c ++ [eof_round]).
    intros rounds. clear Hw1. revert w1.
    induction rounds as [|r rounds IH]; intros w1 st0; cbn [wait_loop].
    - destruct (negb _); [|destruct (_ <=? _)]; by intros [= _ _ <-].
    - destruct (negb _); [by intros [= _ _ <-]|].
      destruct (_ <=? _); [by intros [= _ _ <-]|].
      destruct (select st0 r) as [events blocked].
      destruct (match events with [] => _ | _ :: _ => false end); [by intros [= _ _ <-]|].
      intros Hloop. by apply IH in Hloop as ->. }
  destruct e.
  - unfold wait. destruct (c_exit_at c); cbn [world_of]; cbn; congruence.
  - cbn [world_of]. unfold terminate.
    destruct (gone_at _ _ _); [destruct (_ <=? _)|]; cbn; congruence.
Qed.

Lemma close_removes {A} tmp (r : Res A) w w0 tr0 :
  is_hang r = false ->
  w_tmp (world_of r) = S (w_tmp w) ->
  (exists tr, w_trace (world_of r) = w_trace w0 ++ tr
              /\ List.filter is_tempdir_effect tr = []) ->
  w_trace w0 = w_trace w ++ [EMkdtemp tmp] ++ tr0 ->
  List.filter is_tempdir_effect tr0 = [] ->
  directory_removed tmp w (close tmp r).
Proof.
  intros Hr Ht (tr & Htr & Hf) Hw0 Hf0.
  destruct r as [a w1|e w1|w1]; [| |discriminate]; cbn [close world_of] in *.
  all: split; [done|]; split; [exact Ht|];
    exists (tr0 ++ tr); cbn; rewrite Htr, Hw0, List.filter_app, Hf, Hf0;
    split; [by rewrite <- !app_assoc|done].
Qed.

(** X13: when [version], [smoketest] or [validate_netlist] (for a netlist that
    is not blank) returns an envelope, the temporary directory it made has
    been removed, it was the only one made, and nothing is left of it. *)
Theorem adapter_removes_directory (limits : option (gmap string PyVal)) (text : string)
    (w w' : World) (env : Envelope) :
  version limits w = Ret env w'
  \/ smoketest limits w = Ret env w'
  \/ (validate_netlist (VStr text) limits w = Ret env w' /\ strip text <> "") ->
  directory_removed (fst (mkdtemp w)) w w'.
Proof.
  intros [Hop|[Hop|[Hop Htext]]].
  - destruct (version_world limits w) as [Hw Hh]. cbv zeta in *.
    rewrite Hop in Hw, Hh. cbn [world_of is_hang] in Hw, Hh. subst w'.
    set (cfg := _build_limits limits) in *. set (tmp := fst (mkdtemp w)) in *.
    pose proof (run_process_extends ["ngspice"; "-v"] tmp (limit_of cfg "timeout_ms")
                  (limit_of cfg "max_stdout_bytes") (limit_of cfg "max_stderr_bytes")
                  (snd (mkdtemp w))) as He1.
    pose proof (run_process_keeps_counter ["ngspice"; "-v"] tmp (limit_of cfg "timeout_ms")
                  (limit_of cfg "max_stdout_bytes") (limit_of cfg "max_stderr_bytes")
                  (snd (mkdtemp w))) as Hc1.
    destruct (run_process ["ngspice"; "-v"] tmp _ _ _ _)
      as [[[[out err] code] ms] w1|e w1|w1] eqn:Hrun1.
    + destruct (code =? 0).
      * change (rmtree tmp w1) with (close tmp (Ret (out, err, code, ms) w1)).
        by eapply (close_removes _ _ _ _ []).
      * destruct He1 as (tr1 & Htr1 & Hf1). cbn [world_of] in *.
        eapply (close_removes _ _ _ w1 tr1); try done.
        -- by rewrite run_process_keeps_counter, Hc1.
        -- apply run_process_extends.
        -- rewrite Htr1. cbn. by rewrite <- app_assoc.
    + by eapply (close_removes _ _ _ _ []).
    + discriminate.
  - destruct (smoketest_world limits w) as [Hw Hh]. cbv zeta in *.
    rewrite Hop in Hw, Hh. cbn [world_of is_hang] in Hw, Hh. subst w'.
    eapply (close_removes _ _ _ _ [EWriteText "smoke.cir" smoke_netlist]); try done.
    + by rewrite run_process_keeps_counter.
    + apply run_process_extends.
    + cbn. by rewrite <- app_assoc.
  - destruct (validate_netlist_world text limits w Htext) as [Hw Hh]. cbv zeta in *.
    rewrite Hop in Hw, Hh. cbn [world_of is_hang] in Hw, Hh. subst w'.
    eapply (close_removes _ _ _ _ [EWriteText "input.cir" text]); try done.
    + by rewrite run_process_keeps_counter.
    + apply run_process_extends.
    + cbn. by rewrite <- app_assoc.
Qed.

(** X14: for a netlist that is not blank, [validate_netlist] writes it to
    [input.cir], UTF-8 encoded, in a fresh directory; a [RunnerError] of the
    run becomes its envelope, after the directory is removed; a run that
    blocks makes the operation block. *)
Theorem validate_netlist_runner_error (text : string)
    (limits : option (gmap string PyVal)) (w : World) :
  strip text <> "" ->
  let cfg := _build_limits limits in
  let tmp := fst (mkdtemp w) in
  let w0 := world_of (write_text "input.cir" text (snd (mkdtemp w))) in
  let run := run_process VALIDATE_ARGV tmp (limit_of cfg "timeout_ms")
               (limit_of cfg "max_stdout_bytes") (limit_of cfg "max_stderr_bytes") in
  w_dir w0 = [ {| e_name := "input.cir"; e_is_file := true; e_data := encode_utf8 text |} ]
  /\ (forall e w1,
         run w0 = Raise (ERunner e) w1 ->
         validate_netlist (VStr text) limits w = Ret (runner_envelope e) (rmtree tmp w1))
  /\ (forall w1, run w0 = Hang w1 -> validate_netlist (VStr text) limits w = Hang w1).
Proof.
  intros Htext cfg tmp w0 run. split; [reflexivity|].
  assert (forall r, run w0 = r ->
                    match r with
                    | Raise (ERunner e) w1 =>
                        validate_netlist (VStr text) limits w
                        = Ret (runner_envelope e) (rmtree tmp w1)
                    | Hang w1 => validate_netlist (VStr text) limits w = Hang w1
                    | _ => True
                    end) as Hcases.
  { intros r Hr. unfold validate_netlist.
    destruct (String.eqb_spec (strip text) "") as [|_]; [done|].
    unfold TemporaryDirectory, try_runner, bind, runner_failed, ret.
    subst cfg tmp w0 run. destruct (mkdtemp w) as [tmp w0].
    cbn [fst snd world_of write_text] in *.
    rewrite run_with_limits. fold VALIDATE_ARGV. rewrite Hr.
    by destruct r as [?|[?|?] ?|?]. }
  split.
  - intros e w1 Hr. exact (Hcases _ Hr).
  - intros w1 Hr. exact (Hcases _ Hr).
Qed.

(** X15: when no [ngspice] executable is found and the merged limits are
    accepted by the runner, the three operations answer with the
    [process_not_found] envelope for [ngspice] instead of raising. *)
Theorem ngspice_not_installed (limits : option (gmap string PyVal)) (text : string)
    (w : World) :
  limits_accepted limits = true ->
  w_spawns w = [] \/ (exists rest, w_spawns w = NotFound :: rest) ->
  strip text <> "" ->
  (exists w', version limits w = Ret (not_found_envelope "ngspice") w')
  /\ (exists w', smoketest limits w = Ret (not_found_envelope "ngspice") w')
  /\ (exists w', validate_netlist (VStr text) limits w
                 = Ret (not_found_envelope "ngspice") w').
Proof.
  intros Hacc Hspawn Htext.
  unfold limits_accepted in Hacc. cbv zeta in Hacc.
  apply andb_true_iff in Hacc as [Hacc Hme]. apply andb_true_iff in Hacc as [Ht Hmo].
  apply Z.ltb_lt in Ht, Hmo, Hme.
  assert (forall argv w0,
             existsb has_nul argv = false ->
             w_spawns w0 = w_spawns w ->
             exists w1,
               run_with (_build_limits limits) ("ngspice" :: argv) (fst (mkdtemp w)) w0
               = Raise (ERunner {| error_type := "process_not_found";
                                   message := "Executable not found: " +:+ "ngspice";
                                   details := {[ "argv0" := VStr "ngspice" ]} |}) w1)
    as Hrun.
  { intros argv w0 Hargv Hw0. rewrite run_with_limits.
    destruct (run_process_not_spawned "ngspice" argv (fst (mkdtemp w))
                (limit_of (_build_limits limits) "timeout_ms")
                (limit_of (_build_limits limits) "max_stdout_bytes")
                (limit_of (_build_limits limits) "max_stderr_bytes") w0 Ht Hmo Hme)
      as [w1 ->]; [|by rewrite Hw0|by eexists].
    cbn [existsb]. by rewrite mkdtemp_no_nul, Hargv. }
  split; [|split].
  - unfold version, TemporaryDirectory, try_runner, bind, runner_failed, ret.
    destruct (mkdtemp w) as [tmp w0] eqn:Hmk. cbn [fst] in Hrun.
    destruct (Hrun ["-v"] w0) as [w1 ->]; [done|by injection Hmk as _ <-|]. by eexists.
  - unfold smoketest, TemporaryDirectory, try_runner, bind, runner_failed, ret, write_text.
    destruct (mkdtemp w) as [tmp w0] eqn:Hmk. cbn [fst] in Hrun.
    match goal with |- context [run_with _ ("ngspice" :: ?argv) tmp ?w1] =>
      destruct (Hrun argv w1) as [w2 ->]; [done|by injection Hmk as _ <-|] end.
    by eexists.
  - unfold validate_netlist.
    destruct (String.eqb_spec (strip text) "") as [|_]; [done|].
    unfold TemporaryDirectory, try_runner, bind, runner_failed, ret, write_text.
    destruct (mkdtemp w) as [tmp w0] eqn:Hmk. cbn [fst] in Hrun.
    match goal with |- context [run_with _ ("ngspice" :: ?argv) tmp ?w1] =>
      destruct (Hrun argv w1) as [w2 ->]; [done|by injection Hmk as _ <-|] end.
    by eexists.
Qed.

End AdapterExtras.

Lemma validate_netlist_rejects_blank_witness :
  validate_netlist (lib := ascii_lib) (VStr "   ") (Some {[ "timeout_ms" := VInt (PInt 0) ]})
    (world0 [Spawned quick])
  = Ret {| ok := false; stdout := ""; stderr := ""; files := [];
           metrics := {| elapsed_ms := 0; exit_code := -1 |};
           error := Some {| err_type := "invalid_input";
                            err_message := "netlist_text must be a non-empty string.";
                            err_details := ∅ |} |} (world0 [Spawned quick]).
Proof.
  apply (validate_netlist_rejects_blank (lib := ascii_lib)).
  intros text [= <-]. reflexivity.
Defined.

Lemma ngspice_not_installed_witness :
  (exists w', version (lib := ascii_lib) None (world0 [])
              = Ret (not_found_envelope "ngspice") w')
  /\ (exists w', smoketest (lib := ascii_lib) None (world0 [])
                 = Ret (not_found_envelope "ngspice") w')
  /\ (exists w', validate_netlist (lib := ascii_lib) (VStr "R1 a b 1k") None (world0 [])
                 = Ret (not_found_envelope "ngspice") w').
Proof.
  apply (ngspice_not_installed (lib := ascii_lib) None "R1 a b 1k" (world0 [])).
  - vm_compute. reflexivity.
  - left. reflexivity.
  - vm_compute. discriminate.
Defined.

Lemma adapter_removes_directory_witness :
  exists env w',
    smoketest (lib := ascii_lib) None (world0 [Spawned talker]) = Ret env w'
    /\ directory_removed (fst (mkdtemp (world0 [Spawned talker])))
         (world0 [Spawned talker]) w'.
Proof.
  eexists _, _. split; [vm_compute; reflexivity|].
  eapply (adapter_removes_directory (lib := ascii_lib) None "" (world0 [Spawned talker])).
  right. left. vm_compute. reflexivity.
Defined.

Lemma validate_netlist_runner_error_witness :
  exists e w1,
    validate_netlist (lib := ascii_lib) (VStr "R1 a b 1k")
      (Some {[ "timeout_ms" := VInt (PInt 100) ]}) (world0 [Spawned sleeper])
    = Ret (runner_envelope e) w1
    /\ error_type e = "timeout".
Proof.
  destruct (validate_netlist_runner_error (lib := ascii_lib) "R1 a b 1k"
              (Some {[ "timeout_ms" := VInt (PInt 100) ]}) (world0 [Spawned sleeper])) as (_ & H & _).
  { vm_compute. discriminate. }
  eexists _, _. split.
  - eapply H. vm_compute. reflexivity.
  - reflexivity.
Defined.

(** ** The dispatcher and the registry *)

Section ServerExtras.
Context {lib : PyLib}.

(** X16: the order of the dispatcher's checks. A payload that is not an
    object is an [invalid_request]; then a [tool] other than ["ngspice"] is
    an [unknown_tool], with the tool given back in the details, whatever the
    rest of the payload; then an [op] that cannot be hashed (a list or an
    object) raises [TypeError] and gives no envelope; then an [op] outside the
    three operations is an [unknown_op], with the op given back in the
    details. None of these changes the world. *)
Theorem handle_run_refusals (payload : PyVal) (w : World) :
  (isinstance_dict payload = false ->
   handle_run payload w
   = Ret (refusal "invalid_request" "Request body must be a JSON object." ∅) w)
  /\ (forall p, payload = VDict p ->
        eq_str (dict_get p "tool") "ngspice" = false ->
        handle_run payload w
        = Ret (refusal "unknown_tool" "Unsupported tool."
                 {[ "tool" := dict_get p "tool" ]}) w)
  /\ (forall p, payload = VDict p ->
        eq_str (dict_get p "tool") "ngspice" = true ->
        hashable (dict_get p "op") = false ->
        handle_run payload w = Raise (EOther "TypeError") w)
  /\ (forall p, payload = VDict p ->
        eq_str (dict_get p "tool") "ngspice" = true ->
        hashable (dict_get p "op") = true ->
        existsb (eq_str (dict_get p "op")) OPS = false ->
        handle_run payload w
        = Ret (refusal "unknown_op" "Unsupported operation."
                 {[ "op" := dict_get p "op" ]}) w).
Proof.
  split; [|split; [|split]].
  - by destruct payload.
  - intros p -> Htool. unfold handle_run. by rewrite Htool.
  - intros p -> Htool Hop. unfold handle_run. by rewrite Htool, Hop.
  - intros p -> Htool Hh Hop. unfold handle_run. by rewrite Htool, Hh, Hop.
Qed.

Lemma handle_run_routes p w op limits inputs :
  eq_str (dict_get p "tool") "ngspice" = true ->
  dict_get p "op" = VStr op ->
  In op OPS ->
  object_or_empty p "inputs" = Some inputs ->
  object_or_empty p "limits" = Some limits ->
  handle_run (VDict p) w
  = if String.eqb op "version" then version (Some limits) w
    else if String.eqb op "smoketest" then smoketest (Some limits) w
    else validate_netlist (dict_get inputs "netlist_text") (Some limits) w.
Proof.
  intros Htool Hop Hin Hi Hl. unfold handle_run. rewrite Htool, Hop. cbn [negb hashable].
  assert (existsb (eq_str (VStr op)) OPS = true) as ->.
  { apply existsb_exists. exists op. split; [exact Hin|]. cbn. apply String.eqb_refl. }
  cbn [negb]. unfold object_or_empty in Hi, Hl.
  destruct (py_or (dict_get p "inputs") (VDict ∅)); try discriminate.
  destruct (py_or (dict_get p "limits") (VDict ∅)); try discriminate.
  injection Hi as ->. injection Hl as ->. cbn [eq_str].
  destruct (String.eqb op "version"); [reflexivity|].
  destruct (String.eqb op "smoketest"); reflexivity.
Qed.

(** X17: a request for one of the three operations of [ngspice] whose
    [inputs] and [limits] are objects, or falsy, is the call of the adapter's
    operation with those limits, [validate_netlist] taking
    [inputs.get("netlist_text")]; with falsy limits it is the call without
    limits. *)
Theorem handle_run_dispatches p w op limits inputs :
  eq_str (dict_get p "tool") "ngspice" = true ->
  dict_get p "op" = VStr op ->
  In op OPS ->
  object_or_empty p "inputs" = Some inputs ->
  object_or_empty p "limits" = Some limits ->
  handle_run (VDict p) w
  = (if String.eqb op "version" then version (Some limits) w
     else if String.eqb op "smoketest" then smoketest (Some limits) w
     else validate_netlist (dict_get inputs "netlist_text") (Some limits) w)
  /\ (truthy (dict_get p "limits") = false ->
      handle_run (VDict p) w
      = if String.eqb op "version" then version None w
        else if String.eqb op "smoketest" then smoketest None w
        else validate_netlist (dict_get inputs "netlist_text") None w).
Proof.
  intros Htool Hop Hin Hi Hl.
  rewrite (handle_run_routes p w op limits inputs) by assumption.
  split; [reflexivity|]. intros Hfalsy.
  unfold object_or_empty, py_or in Hl. rewrite Hfalsy in Hl. injection Hl as <-.
  reflexivity.
Qed.

(** X18: a [validate_netlist] request whose inputs hold no [netlist_text], or
    one that is not a string, or a blank one, is answered [invalid_input];
    nothing is written or run. *)
Theorem handle_run_requires_netlist p w limits inputs :
  eq_str (dict_get p "tool") "ngspice" = true ->
  dict_get p "op" = VStr "validate_netlist" ->
  object_or_empty p "inputs" = Some inputs ->
  object_or_empty p "limits" = Some limits ->
  (forall text, dict_get inputs "netlist_text" = VStr text -> strip text = "") ->
  handle_run (VDict p) w
  = Ret (refusal "invalid_input" "netlist_text must be a non-empty string." ∅) w.
Proof.
  intros Htool Hop Hi Hl Hblank.
  rewrite (handle_run_routes p w "validate_netlist" limits inputs); try assumption.
  - cbn. by apply validate_netlist_blank.
  - cbn. tauto.
Qed.

(** X19: the registry and the dispatcher agree: ["ngspice"] is the one tool
    registered and its operations are the three the dispatcher accepts; a
    request that names a tool outside the registry is an [unknown_tool], one
    that names a registered tool and an operation outside its [ops] is an
    [unknown_op], and every registered operation passes both checks. *)
Theorem registry_matches_dispatcher (p : gmap string PyVal) (tool op : string) (w : World) :
  dom REGISTRY = {[ "ngspice" ]}
  /\ dom (registered_ops "ngspice") = list_to_set OPS
  /\ (dict_get p "tool" = VStr tool -> tool ∉ dom REGISTRY ->
      handle_run (VDict p) w
      = Ret (refusal "unknown_tool" "Unsupported tool." {[ "tool" := VStr tool ]}) w)
  /\ (dict_get p "tool" = VStr tool -> dict_get p "op" = VStr op ->
      tool ∈ dom REGISTRY -> op ∉ dom (registered_ops tool) ->
      handle_run (VDict p) w
      = Ret (refusal "unknown_op" "Unsupported operation." {[ "op" := VStr op ]}) w)
  /\ (dict_get p "tool" = VStr tool -> dict_get p "op" = VStr op ->
      tool ∈ dom REGISTRY -> op ∈ dom (registered_ops tool) ->
      existsb (eq_str (dict_get p "op")) OPS = true).
Proof.
  assert (dom REGISTRY = {[ "ngspice" ]}) as Hreg.
  { unfold REGISTRY. by rewrite dom_singleton_L. }
  assert (dom (registered_ops "ngspice") = list_to_set OPS) as Hops.
  { apply set_eq. intros k. rewrite elem_of_dom, elem_of_list_to_set.
    unfold OPS. split.
    - intros [v Hv]. 
      destruct (decide (k = "version")) as [->|?]; [set_solver|].
      destruct (decide (k = "smoketest")) as [->|?]; [set_solver|].
      destruct (decide (k = "validate_netlist")) as [->|?]; [set_solver|].
      exfalso. revert Hv. unfold registered_ops, REGISTRY.
      rewrite lookup_singleton_eq, lookup_singleton_eq.
      rewrite !lookup_insert_ne by done. by rewrite lookup_singleton_ne.
    - intros Hin. repeat (apply elem_of_cons in Hin as [->|Hin]; [by eexists|]).
      by apply elem_of_nil in Hin. }
  split; [exact Hreg|]. split; [exact Hops|].
  split; [|split].
  - intros Htool Hout. unfold handle_run. rewrite Htool. cbn [eq_str].
    destruct (String.eqb_spec tool "ngspice") as [->|_]; [|done].
    exfalso. apply Hout. rewrite Hreg. set_solver.
  - intros Htool Hop Hin Hout. rewrite Hreg in Hin. apply elem_of_singleton in Hin.
    subst tool. unfold handle_run. rewrite Htool, Hop. cbn [eq_str hashable negb].
    rewrite String.eqb_refl. cbn [negb].
    assert (existsb (eq_str (VStr op)) OPS = false) as ->; [|done].
    destruct (existsb _ OPS) eqn:He; [|done]. exfalso. apply Hout. rewrite Hops.
    apply existsb_exists in He as (s & Hs & Heq). cbn in Heq.
    apply String.eqb_eq in Heq. subst s. apply elem_of_list_to_set.
    by apply list_elem_of_In.
  - intros Htool Hop Hin Hmem. rewrite Hreg in Hin. apply elem_of_singleton in Hin.
    subst tool. rewrite Hops in Hmem. apply elem_of_list_to_set in Hmem.
    rewrite Hop. apply existsb_exists. exists op. split; [by apply list_elem_of_In|].
    cbn. apply String.eqb_refl.
Qed.

End ServerExtras.

Lemma handle_run_dispatches_witness :
  handle_run (lib := ascii_lib) (VDict version_request) (world0 [Spawned quick])
  = version (lib := ascii_lib) (Some ∅) (world0 [Spawned quick])
  /\ handle_run (lib := ascii_lib) (VDict version_request) (world0 [Spawned quick])
     = version (lib := ascii_lib) None (world0 [Spawned quick]).
Proof.
  destruct (handle_run_dispatches (lib := ascii_lib) version_request
              (world0 [Spawned quick])
              "version" ∅ ∅) as [H1 H2].
  - vm_compute. reflexivity.
  - vm_compute. reflexivity.
  - cbn. tauto.
  - vm_compute. reflexivity.
  - vm_compute. reflexivity.
  - split; [exact H1|]. apply H2. vm_compute. reflexivity.
Defined.

Lemma handle_run_requires_netlist_witness :
  handle_run (lib := ascii_lib) (VDict number_netlist_request) (world0 [Spawned quick])
  = Ret (refusal "invalid_input" "netlist_text must be a non-empty string." ∅)
        (world0 [Spawned quick]).
Proof.
  apply (handle_run_requires_netlist (lib := ascii_lib) number_netlist_request
           (world0 [Spawned quick]) ∅
           {[ "netlist_text" := VInt (PInt 7) ]}).
  - vm_compute. reflexivity.
  - vm_compute. reflexivity.
  - vm_compute. reflexivity.
  - vm_compute. reflexivity.
  - intros text H. vm_compute in H. discriminate H.
Defined.
